(** * kraken: lib/torrent/storage/agentstorage/torrent_archive.go

    A shallow embedding of [TorrentArchive] and of its methods [Stat],
    [downloadMetaInfo], [CreateTorrent], [GetTorrent] and [DeleteTorrent].

    The archive talks to three collaborators: the file store ([a.fs]), the
    metainfo client ([a.metaInfoClient]) and the torrent constructor
    ([NewTorrent]).  Every call to one of them is an effect of the program
    tree [Prog]; a method of the archive is a finite tree of such calls.
    Trees are run against a handler (any environment), which yields the
    returned value, the final environment and the trace of calls made. *)

From Stdlib Require Import ZArith String List Lia.
From stdpp Require Import base option strings list gmap.

Local Open Scope Z_scope.
Local Open Scope string_scope.
Local Open Scope list_scope.

(** ** Go values *)

(** [[]byte] *)
Abbreviation bytes := (list Byte.byte).

(** A Go [error] value that is not nil.  Two package-level error variables
    are compared by identity in the source; every other error is known by
    its [Error()] text and by what [os.IsNotExist] answers on it. *)
Inductive error : Type :=
| metainfoclient_ErrNotFound
| storage_ErrNotFound
| mkError (notExist : bool) (msg : string).

Global Instance error_eq_dec : EqDecision error.
Proof. solve_decision. Defined.

(** [os.IsNotExist(err)], on an [error] interface value that may be nil. *)
Definition os_IsNotExist (err : option error) : bool :=
  match err with
  | Some (mkError ne _) => ne
  | _ => false
  end.

(** A Go call returning [(v, err)]: the value when [err == nil], the error
    otherwise. *)
Abbreviation Ok := inl (only parsing).
Abbreviation Err := inr (only parsing).

(** [err] of a [(v, err)] result, as a nil-able interface value. *)
Definition err_of {A} (r : A + error) : option error :=
  match r with inl _ => None | inr e => Some e end.

(** [Config] of the archive; both fields are read by [downloadMetaInfo].
    [int] and [time.Duration] are 64-bit integers. *)
Record Config : Type := mkConfig {
  UnavailableMetaInfoRetries : Z;
  UnavailableMetaInfoRetrySleep : Z
}.

(** [TorrentArchive]: the configuration is the only field that is data; the
    fields [stats], [fs] and [metaInfoClient] are the collaborators the
    effects below stand for. *)
Record TorrentArchive : Type := mkTorrentArchive {
  config : Config
}.

(** The metadata kinds [store.NewTorrentMeta()] and [store.NewPieceStatus()]. *)
Inductive MetadataType : Type := TorrentMeta | PieceStatus.

Global Instance MetadataType_eq_dec : EqDecision MetadataType.
Proof. solve_decision. Defined.

Global Instance MetadataType_countable : Countable MetadataType.
Proof.
  refine (inj_countable' (fun m => match m with TorrentMeta => true | PieceStatus => false end)
                         (fun b : bool => if b then TorrentMeta else PieceStatus) _).
  by intros [].
Defined.

(** ** What the file uses and does not define

    [core.MetaInfo] with [mi.Name()], [mi.Info.Length], [mi.Serialize()]
    and [core.DeserializeMetaInfo]; [storage.Torrent], as built by
    [NewTorrent]; the bitfield type and [newBitfieldFromPieceStatusBytes],
    which returns a bitfield and no error; [Config.applyDefaults]; the texts
    of the two package-level errors. *)
Class Externals : Type := {
  MetaInfo : Type;
  Name : MetaInfo -> string;
  Length : MetaInfo -> Z;
  Serialize : MetaInfo -> bytes + error;
  DeserializeMetaInfo : bytes -> MetaInfo + error;
  Torrent : Type;
  Bitfield : Type;
  newBitfieldFromPieceStatusBytes : string -> bytes -> Bitfield;
  applyDefaults : Config -> Config;
  metainfoclient_ErrNotFound_text : string;
  storage_ErrNotFound_text : string
}.

Section Defs.

Context {ext : Externals}.



(** [storage.TorrentInfo] as [storage.NewTorrentInfo(mi, b)] builds it. *)
Record TorrentInfo : Type := NewTorrentInfo {
  info_metainfo : MetaInfo;
  info_bitfield : Bitfield
}.

(** [err.Error()] *)
Definition Error (e : error) : string :=
  match e with
  | metainfoclient_ErrNotFound => metainfoclient_ErrNotFound_text
  | storage_ErrNotFound => storage_ErrNotFound_text
  | mkError _ msg => msg
  end.

(** The verb [%s] applied to an [error] interface value: its text, and
    [%!s(<nil>)] for nil. *)
Definition fmt_s (err : option error) : string :=
  match err with
  | Some e => Error e
  | None => "%!s(<nil>)"
  end.

(** [fmt.Errorf(prefix + "%s", err)]: a fresh error carrying only a text,
    so [os.IsNotExist] is false on it and it is no package-level error. *)
Definition Errorf (prefix : string) (err : option error) : error :=
  mkError false (prefix ++ fmt_s err)%string.

(** ** Effects: the calls to the collaborators *)

Inductive Eff : Type -> Type :=
(** [a.fs.States().Download().Cache().GetMetadata(name, md)] *)
| GetMetadata (name : string) (md : MetadataType) : Eff (bytes + error)
(** [a.fs.States().Download().Cache().GetOrSetMetadata(name, md, b)] *)
| GetOrSetMetadata (name : string) (md : MetadataType) (b : bytes) : Eff (bytes + error)
(** [a.fs.EnsureDownloadOrCacheFilePresent(name, length)] *)
| EnsureDownloadOrCacheFilePresent (name : string) (length : Z) : Eff (option error)
(** [a.fs.DeleteDownloadOrCacheFile(name)] *)
| DeleteDownloadOrCacheFile (name : string) : Eff (option error)
(** [a.metaInfoClient.Download(namespace, name)] *)
| Download (namespace name : string) : Eff (MetaInfo + error)
(** [time.Sleep(d)] *)
| Sleep (d : Z) : Eff unit
(** [a.stats.Timer(name).Start()] and [.Stop()] on the stopwatch *)
| TimerStart (name : string) : Eff unit
| TimerStop (name : string) : Eff unit
(** [NewTorrent(a.fs, mi)] *)
| NewTorrent (mi : MetaInfo) : Eff (Torrent + error).

(** A program: return a value, or make a call and go on with its answer. *)
Inductive Prog (A : Type) : Type :=
| Ret (a : A)
| Vis {X : Type} (e : Eff X) (k : X -> Prog A).
Arguments Ret {A} a.
Arguments Vis {A X} e k.

Fixpoint bind {A B : Type} (m : Prog A) (f : A -> Prog B) : Prog B :=
  match m with
  | Ret a => f a
  | Vis e k => Vis e (fun x => bind (k x) f)
  end.

Definition call {X : Type} (e : Eff X) : Prog X := Vis e Ret.

Notation "x <- m ;; f" := (bind m (fun x => f))
  (at level 100, m at next level, right associativity).
Notation "m ;;; f" := (bind m (fun _ => f))
  (at level 100, right associativity).

(** A call together with its answer, as it is recorded in a trace. *)
Inductive event : Type :=
| EvGetMetadata (name : string) (md : MetadataType) (r : bytes + error)
| EvGetOrSetMetadata (name : string) (md : MetadataType) (b : bytes) (r : bytes + error)
| EvEnsureFilePresent (name : string) (length : Z) (r : option error)
| EvDeleteFile (name : string) (r : option error)
| EvDownload (namespace name : string) (r : MetaInfo + error)
| EvSleep (d : Z)
| EvTimerStart (name : string)
| EvTimerStop (name : string)
| EvNewTorrent (mi : MetaInfo) (r : Torrent + error).

Definition observe {X : Type} (e : Eff X) : X -> event :=
  match e in Eff X return X -> event with
  | GetMetadata name md => EvGetMetadata name md
  | GetOrSetMetadata name md b => EvGetOrSetMetadata name md b
  | EnsureDownloadOrCacheFilePresent name len => EvEnsureFilePresent name len
  | DeleteDownloadOrCacheFile name => EvDeleteFile name
  | Download ns name => EvDownload ns name
  | Sleep d => fun _ => EvSleep d
  | TimerStart name => fun _ => EvTimerStart name
  | TimerStop name => fun _ => EvTimerStop name
  | NewTorrent mi => EvNewTorrent mi
  end.

(** An environment: a state [W] and the answer it gives to each call. *)
Definition handler (W : Type) : Type := forall X : Type, Eff X -> W -> X * W.

(** Run a program in an environment: the value returned, the environment
    left behind and the calls made, oldest first. *)
Fixpoint interp {W A : Type} (h : handler W) (p : Prog A) (w : W)
  : A * W * list event :=
  match p with
  | Ret a => (a, w, [])
  | Vis e k =>
      let '(x, w1) := h _ e w in
      let '(a, w2, tr) := interp h (k x) w1 in
      (a, w2, observe e x :: tr)
  end.

(** ** The methods of [TorrentArchive] *)

(** [Stat] *)
Definition Stat (a : TorrentArchive) (namespace name : string)
  : Prog (TorrentInfo + error) :=
  r <- call (GetMetadata name TorrentMeta) ;;
  match r with
  | inr err => Ret (Err err)
  | inl raw =>
      match DeserializeMetaInfo raw with
      | inr err => Ret (Err (Errorf "deserialize metainfo: " (Some err)))
      | inl mi =>
          r <- call (GetMetadata name PieceStatus) ;;
          match r with
          | inr err => Ret (Err err)
          | inl raw =>
              let b := newBitfieldFromPieceStatusBytes name raw in
              Ret (Ok (NewTorrentInfo mi b))
          end
      end
  end.

(** The loop of [downloadMetaInfo]: [n] iterations are left, [i] is the
    loop variable and [err] the named result as the previous iteration
    left it (nil before the first one). *)
Fixpoint downloadMetaInfo_loop (a : TorrentArchive) (namespace name : string)
    (n : nat) (i : Z) (err : option error) : Prog (MetaInfo + error) :=
  match n with
  | O => Ret (Err (Errorf "download metainfo: " err))
  | S n' =>
      (if (0 <? i)%Z
       then call (Sleep (UnavailableMetaInfoRetrySleep (config a)))
       else Ret tt) ;;;
      r <- call (Download namespace name) ;;
      match r with
      | inr e =>
          if decide (e = metainfoclient_ErrNotFound)
          then Ret (Err storage_ErrNotFound)
          else downloadMetaInfo_loop a namespace name n' (i + 1) (Some e)
      | inl mi => Ret (Ok mi)
      end
  end.

(** [downloadMetaInfo]: [for i := 0; i < retries; i++] runs its body for
    [i = 0, ..., retries - 1], that is [Z.to_nat retries] times. *)
Definition downloadMetaInfo (a : TorrentArchive) (namespace name : string)
  : Prog (MetaInfo + error) :=
  downloadMetaInfo_loop a namespace name
    (Z.to_nat (UnavailableMetaInfoRetries (config a))) 0 None.

(** [CreateTorrent].  The statements that follow the [if] / [else if] of
    the source run whenever a branch falls through with [miRaw] set; they
    are [rest]. *)
Definition CreateTorrent (a : TorrentArchive) (namespace name : string)
  : Prog (Torrent + error) :=
  let rest (miRaw : bytes) : Prog (Torrent + error) :=
    match DeserializeMetaInfo miRaw with
    | inr err => Ret (Err (Errorf "parse metainfo: " (Some err)))
    | inl mi =>
        r <- call (NewTorrent mi) ;;
        match r with
        | inr err => Ret (Err (Errorf "initialize torrent: " (Some err)))
        | inl t => Ret (Ok t)
        end
    end in
  r <- call (GetMetadata name TorrentMeta) ;;
  if os_IsNotExist (err_of r) then
    call (TimerStart "metainfo_download") ;;;
    r <- downloadMetaInfo a namespace name ;;
    match r with
    | inr err => Ret (Err err)
    | inl mi =>
        call (TimerStop "metainfo_download") ;;;
        r <- call (EnsureDownloadOrCacheFilePresent (Name mi) (Length mi)) ;;
        match r with
        | Some err =>
            Ret (Err (Errorf "ensure download/cache file present: " (Some err)))
        | None =>
            match Serialize mi with
            | inr err =>
                Ret (Err (Errorf "serialize downloaded metainfo: " (Some err)))
            | inl miRaw =>
                r <- call (GetOrSetMetadata name TorrentMeta miRaw) ;;
                match r with
                | inr err => Ret (Err (Errorf "get or set metainfo: " (Some err)))
                | inl miRaw => rest miRaw
                end
            end
        end
    end
  else
    match r with
    | inr err => Ret (Err (Errorf "get metainfo: " (Some err)))
    | inl miRaw => rest miRaw
    end.

(** [GetTorrent] *)
Definition GetTorrent (a : TorrentArchive) (namespace name : string)
  : Prog (Torrent + error) :=
  r <- call (GetMetadata name TorrentMeta) ;;
  match r with
  | inr err => Ret (Err (Errorf "get metainfo: " (Some err)))
  | inl miRaw =>
      match DeserializeMetaInfo miRaw with
      | inr err => Ret (Err (Errorf "parse metainfo: " (Some err)))
      | inl mi =>
          r <- call (NewTorrent mi) ;;
          match r with
          | inr err => Ret (Err (Errorf "initialize torrent: " (Some err)))
          | inl t => Ret (Ok t)
          end
      end
  end.

(** [DeleteTorrent] *)
Definition DeleteTorrent (a : TorrentArchive) (name : string)
  : Prog (option error) :=
  r <- call (DeleteDownloadOrCacheFile name) ;;
  match r with
  | Some err => if negb (os_IsNotExist (Some err)) then Ret (Some err) else Ret None
  | None => Ret None
  end.

(** ** Reading the outcome of a run *)

Definition result_of {W A : Type} (x : A * W * list event) : A := x.1.1.
Definition world_of {W A : Type} (x : A * W * list event) : W := x.1.2.
Definition trace_of {W A : Type} (x : A * W * list event) : list event := x.2.

Definition is_download (ev : event) : bool :=
  match ev with EvDownload _ _ _ => true | _ => false end.

Definition is_sleep (ev : event) : bool :=
  match ev with EvSleep _ => true | _ => false end.

(** The number of [Download] calls in a trace: the fetch-call counter. *)
Definition count_downloads (tr : list event) : nat :=
  length (List.filter is_download tr).

Definition count_sleeps (tr : list event) : nat :=
  length (List.filter is_sleep tr).

(** A [Download] that failed with an error other than
    [metainfoclient.ErrNotFound]; true on every other call. *)
Definition download_failed_transiently (ev : event) : bool :=
  match ev with
  | EvDownload _ _ (inl _) => false
  | EvDownload _ _ (inr e) => negb (bool_decide (e = metainfoclient_ErrNotFound))
  | _ => true
  end.

(** The calls of a fetch whose attempts fail with [errs], one after the
    other: a sleep of [d] before every attempt but the one flagged [first]. *)
Fixpoint retry_trace (namespace name : string) (d : Z) (first : bool)
    (errs : list error) : list event :=
  match errs with
  | [] => []
  | e :: errs' =>
      (if first then [] else [EvSleep d])
      ++ EvDownload namespace name (Err e) :: retry_trace namespace name d false errs'
  end.

(** ** Runs against any environment

    [runs p tr p'] holds when [p] can make the calls [tr], oldest first,
    with the answers recorded in them, and then has [p'] left to run.  No
    environment is fixed: every answer is possible. *)

Fixpoint runs {A : Type} (p : Prog A) (tr : list event) (p' : Prog A) {struct tr}
  : Prop :=
  match tr with
  | [] => p = p'
  | ev :: tr' =>
      match p with
      | Ret _ => False
      | Vis e k => exists x, ev = observe e x /\ runs (k x) tr' p'
      end
  end.

(** The calls of the retry loop. *)
Definition is_fetch_event (ev : event) : bool := is_download ev || is_sleep ev.

(** ** Complete runs of [CreateTorrent] *)

(** Decoding [miRaw] and building the torrent, the steps on which
    [CreateTorrent] and [GetTorrent] end, as a program of its own. *)
Definition parse_and_initialize (miRaw : bytes) : Prog (Torrent + error) :=
  match DeserializeMetaInfo miRaw with
  | inr err => Ret (Err (Errorf "parse metainfo: " (Some err)))
  | inl mi =>
      r <- call (NewTorrent mi) ;;
      match r with
      | inr err => Ret (Err (Errorf "initialize torrent: " (Some err)))
      | inl t => Ret (Ok t)
      end
  end.

(** What [initialize torrent] makes of the answer of [NewTorrent]. *)
Definition initialized (rn : Torrent + error) : Torrent + error :=
  match rn with
  | inl t => Ok t
  | inr err => Err (Errorf "initialize torrent: " (Some err))
  end.

(** The complete runs of [parse_and_initialize miRaw]. *)
Inductive parse_outcome (miRaw : bytes) : list event -> Torrent + error -> Prop :=
| PO_malformed err :
    DeserializeMetaInfo miRaw = Err err ->
    parse_outcome miRaw [] (Err (Errorf "parse metainfo: " (Some err)))
| PO_decoded mi rn :
    DeserializeMetaInfo miRaw = Ok mi ->
    parse_outcome miRaw [EvNewTorrent mi rn] (initialized rn).

(** The calls of the miss path of [CreateTorrent] up to the end of the
    fetch, [trf] being the calls of [downloadMetaInfo]. *)
Definition miss_prefix (name : string) (e0 : error) (trf : list event) : list event :=
  EvGetMetadata name TorrentMeta (Err e0) :: EvTimerStart "metainfo_download" :: trf.

(** The complete runs of [CreateTorrent a namespace name], one rule for
    each way through the function. *)
Inductive CreateTorrent_outcome (a : TorrentArchive) (namespace name : string)
  : list event -> Torrent + error -> Prop :=
| CT_present miRaw tr r :
    parse_outcome miRaw tr r ->
    CreateTorrent_outcome a namespace name
      (EvGetMetadata name TorrentMeta (Ok miRaw) :: tr) r
| CT_read_failed e0 :
    os_IsNotExist (Some e0) = false ->
    CreateTorrent_outcome a namespace name
      [EvGetMetadata name TorrentMeta (Err e0)]
      (Err (Errorf "get metainfo: " (Some e0)))
| CT_fetch_failed e0 trf err :
    os_IsNotExist (Some e0) = true ->
    runs (downloadMetaInfo a namespace name) trf (Ret (Err err)) ->
    CreateTorrent_outcome a namespace name (miss_prefix name e0 trf) (Err err)
| CT_ensure_failed e0 trf mi err :
    os_IsNotExist (Some e0) = true ->
    runs (downloadMetaInfo a namespace name) trf (Ret (Ok mi)) ->
    CreateTorrent_outcome a namespace name
      (miss_prefix name e0 trf
       ++ [EvTimerStop "metainfo_download";
           EvEnsureFilePresent (Name mi) (Length mi) (Some err)])
      (Err (Errorf "ensure download/cache file present: " (Some err)))
| CT_serialize_failed e0 trf mi err :
    os_IsNotExist (Some e0) = true ->
    runs (downloadMetaInfo a namespace name) trf (Ret (Ok mi)) ->
    Serialize mi = Err err ->
    CreateTorrent_outcome a namespace name
      (miss_prefix name e0 trf
       ++ [EvTimerStop "metainfo_download";
           EvEnsureFilePresent (Name mi) (Length mi) None])
      (Err (Errorf "serialize downloaded metainfo: " (Some err)))
| CT_commit_failed e0 trf mi miRaw err :
    os_IsNotExist (Some e0) = true ->
    runs (downloadMetaInfo a namespace name) trf (Ret (Ok mi)) ->
    Serialize mi = Ok miRaw ->
    CreateTorrent_outcome a namespace name
      (miss_prefix name e0 trf
       ++ [EvTimerStop "metainfo_download";
           EvEnsureFilePresent (Name mi) (Length mi) None;
           EvGetOrSetMetadata name TorrentMeta miRaw (Err err)])
      (Err (Errorf "get or set metainfo: " (Some err)))
| CT_committed e0 trf mi miRaw committed tr r :
    os_IsNotExist (Some e0) = true ->
    runs (downloadMetaInfo a namespace name) trf (Ret (Ok mi)) ->
    Serialize mi = Ok miRaw ->
    parse_outcome committed tr r ->
    CreateTorrent_outcome a namespace name
      (miss_prefix name e0 trf
       ++ [EvTimerStop "metainfo_download";
           EvEnsureFilePresent (Name mi) (Length mi) None;
           EvGetOrSetMetadata name TorrentMeta miRaw (Ok committed)]
       ++ tr)
      r.

(** ** Kinds of calls *)

(** Calls that change the store: metadata commit, file allocation, file
    deletion. *)
Definition is_write (ev : event) : bool :=
  match ev with
  | EvGetOrSetMetadata _ _ _ _ | EvEnsureFilePresent _ _ _ | EvDeleteFile _ _ => true
  | _ => false
  end.

(** Reads of a metadata slot. *)
Definition is_read (ev : event) : bool :=
  match ev with EvGetMetadata _ _ _ => true | _ => false end.

(** The contexts the failures of [CreateTorrent] are wrapped in; the first
    is added by [downloadMetaInfo], the others by [CreateTorrent]. *)
Definition CreateTorrent_stages : list string :=
  [ "download metainfo: ";
    "get metainfo: ";
    "ensure download/cache file present: ";
    "serialize downloaded metainfo: ";
    "get or set metainfo: ";
    "parse metainfo: ";
    "initialize torrent: " ].

(** ** Concurrent callers

    The calls of an operation are its atomic steps.  A pool of callers is
    run under a schedule, the list of the threads that take the next step;
    the trace records which thread made which call. *)

Definition pool_state (W A : Type) : Type := list (Prog A) * W * list (nat * event).

(** Thread [i] makes its next call; nothing happens when it has returned
    or does not exist. *)
Definition pool_step {W A : Type} (h : handler W) (st : pool_state W A) (i : nat)
  : pool_state W A :=
  let '(pool, w, tr) := st in
  match pool !! i with
  | Some (Vis e k) =>
      let '(x, w1) := h _ e w in
      (<[i := k x]> pool, w1, tr ++ [(i, observe e x)])
  | _ => st
  end.

Definition run_pool {W A : Type} (h : handler W) (sched : list nat) (st : pool_state W A)
  : pool_state W A :=
  fold_left (pool_step h) sched st.

(** The calls of thread [i] in a trace of the pool. *)
Definition thread_trace (i : nat) (tr : list (nat * event)) : list event :=
  map snd (List.filter (fun x => Nat.eqb x.1 i) tr).

(** ** An in-memory store, client and factory *)

(** [os.ErrNotExist] *)
Definition os_ErrNotExist : error := mkError true "file does not exist".

(** The state of the file store: the metadata slots, keyed by name and
    kind, and the allocated length of each backing file. *)
Record Store : Type := mkStore {
  metadata : gmap (string * MetadataType) bytes;
  files : gmap string Z
}.

(** The state of the environment: the store and the number of [Download]
    calls received so far. *)
Record World : Type := mkWorld {
  store : Store;
  fetches : nat
}.

(** Modelled from the spec: the store, the remote source and the factory
    are not in this file.  Section 6 gives their contracts: [read] answers
    the bytes of a slot or NotExist; [getOrCreate] inserts the bytes only
    when the slot is empty and answers the bytes now in the slot;
    [ensureFilePresent] allocates a file of the given length when there is
    none and leaves an existing file alone; [deleteFile] removes the file
    together with its metadata slots (section 3, lifecycle) and reports
    NotExist when there is none; [download] answers a MetaInfo, the
    not-found signal or an error; [build] is a function of the store and the
    MetaInfo.  Sleeping and timing leave the store alone.  [client k] is
    the answer of the remote source to its [k]-th call, [factory] the
    outcome of constructing a torrent from a store and a MetaInfo. *)
Definition in_memory
    (client : nat -> string -> string -> MetaInfo + error)
    (factory : Store -> MetaInfo -> Torrent + error) : handler World :=
  fun X e =>
    match e in Eff X return World -> X * World with
    | GetMetadata name md => fun w =>
        match metadata (store w) !! (name, md) with
        | Some b => (Ok b, w)
        | None => (Err os_ErrNotExist, w)
        end
    | GetOrSetMetadata name md b => fun w =>
        match metadata (store w) !! (name, md) with
        | Some committed => (Ok committed, w)
        | None =>
            (Ok b,
             mkWorld (mkStore (<[(name, md) := b]> (metadata (store w)))
                              (files (store w)))
                     (fetches w))
        end
    | EnsureDownloadOrCacheFilePresent name len => fun w =>
        match files (store w) !! name with
        | Some _ => (None, w)
        | None =>
            (None,
             mkWorld (mkStore (metadata (store w))
                              (<[name := len]> (files (store w))))
                     (fetches w))
        end
    | DeleteDownloadOrCacheFile name => fun w =>
        match files (store w) !! name with
        | Some _ =>
            (None,
             mkWorld (mkStore (delete (name, TorrentMeta)
                                 (delete (name, PieceStatus) (metadata (store w))))
                              (delete name (files (store w))))
                     (fetches w))
        | None => (Some os_ErrNotExist, w)
        end
    | Download namespace name => fun w =>
        (client (fetches w) namespace name, mkWorld (store w) (S (fetches w)))
    | Sleep _ => fun w => (tt, w)
    | TimerStart _ => fun w => (tt, w)
    | TimerStop _ => fun w => (tt, w)
    | NewTorrent mi => fun w => (factory (store w) mi, w)
    end.

(** The MetaInfo slot of a name. *)
Definition slot (name : string) (w : World) : option bytes :=
  metadata (store w) !! (name, TorrentMeta).

(** The allocated length of the backing file of a name. *)
Definition file_length (name : string) (w : World) : option Z :=
  files (store w) !! name.

(** ** The order of the calls of [CreateTorrent] *)

(** What a call of [CreateTorrent a namespace name] rests on among the
    calls made before it, [seen]: the slot is read first; a file is ensured
    present only under the name and with the length of a MetaInfo that was
    downloaded; the commit writes the encoding of a downloaded MetaInfo
    whose file was ensured present before; the MetaInfo given to
    [NewTorrent] is decoded from bytes the store answered, to the read or
    to the commit; no file is deleted. *)
Definition CreateTorrent_call_ok (namespace name : string)
    (seen : list event) (ev : event) : Prop :=
  match ev with
  | EvGetMetadata n md _ => n = name /\ md = TorrentMeta /\ seen = []
  | EvEnsureFilePresent n len _ =>
      exists mi, n = Name mi /\ len = Length mi /\
                 In (EvDownload namespace name (Ok mi)) seen
  | EvGetOrSetMetadata n md b _ =>
      n = name /\ md = TorrentMeta /\
      exists mi, Serialize mi = Ok b /\
                 In (EvDownload namespace name (Ok mi)) seen /\
                 In (EvEnsureFilePresent (Name mi) (Length mi) None) seen
  | EvNewTorrent mi _ =>
      exists miRaw, DeserializeMetaInfo miRaw = Ok mi /\
        (In (EvGetMetadata name TorrentMeta (Ok miRaw)) seen \/
         exists b, In (EvGetOrSetMetadata name TorrentMeta b (Ok miRaw)) seen)
  | EvDeleteFile _ _ => False
  | EvDownload _ _ _ | EvSleep _ | EvTimerStart _ | EvTimerStop _ => True
  end.

(** Every call of [tr] is fine given the calls before it, [seen] being the
    calls made before [tr]. *)
Fixpoint follows (ok : list event -> event -> Prop) (seen tr : list event) : Prop :=
  match tr with
  | [] => True
  | ev :: tr' => ok seen ev /\ follows ok (seen ++ [ev]) tr'
  end.

(** One caller of [CreateTorrent] per namespace of [nss], all for [name]. *)
Definition CreateTorrent_callers (a : TorrentArchive) (nss : list string) (name : string)
  : list (Prog (Torrent + error)) :=
  map (fun namespace => CreateTorrent a namespace name) nss.

(** The threads, the environment and the trace of a pool. *)
Definition pool_threads {W A : Type} (st : pool_state W A) : list (Prog A) := st.1.1.
Definition pool_world {W A : Type} (st : pool_state W A) : W := st.1.2.
Definition pool_trace {W A : Type} (st : pool_state W A) : list (nat * event) := st.2.

(** The bytes the store answered to a read or to a commit. *)
Definition store_answer (ev : event) : option bytes :=
  match ev with
  | EvGetMetadata _ _ (inl b) => Some b
  | EvGetOrSetMetadata _ _ _ (inl b) => Some b
  | _ => None
  end.

(** Two premises of the data model (section 3 of the spec): the declared
    length is derived from the name, so every MetaInfo the remote source
    answers for [name] carries that name and the one length [len]; and
    decoding an encoded MetaInfo gives back its declared length. *)
Definition length_derived_from_name
    (client : nat -> string -> string -> MetaInfo + error) (name : string) (len : Z) : Prop :=
  forall k namespace mi,
    client k namespace name = Ok mi -> Name mi = name /\ Length mi = len.

Definition round_trip_keeps_length : Prop :=
  forall mi miRaw mi',
    Serialize mi = Ok miRaw -> DeserializeMetaInfo miRaw = Ok mi' -> Length mi' = Length mi.

(** The state of the file and of the slot of [name] while callers of
    [CreateTorrent] for [name] run: the file, when there is one, has the
    length [len]; a file that was ensured present is there; a filled slot
    holds the encoding of a MetaInfo of length [len] and comes with the
    file; every downloaded MetaInfo is an answer of the remote source. *)
Definition file_invariant
    (client : nat -> string -> string -> MetaInfo + error)
    (name : string) (len : Z) (w : World) (tr : list (nat * event)) : Prop :=
  (forall l, file_length name w = Some l -> l = len) /\
  (forall i n l, In (i, EvEnsureFilePresent n l None) tr -> is_Some (file_length n w)) /\
  (forall c, slot name w = Some c ->
     file_length name w = Some len /\
     exists mi, Serialize mi = Ok c /\ Length mi = len) /\
  (forall i namespace n mi, In (i, EvDownload namespace n (Ok mi)) tr ->
     exists k, client k namespace n = Ok mi).

(** ** The attempts of a fetch *)

(** The calls of a fetch whose attempts are answered [answers], one after
    the other: a sleep of [d] before every attempt but the one flagged
    [first]. *)
Fixpoint attempts_trace (namespace name : string) (d : Z) (first : bool)
    (answers : list (MetaInfo + error)) : list event :=
  match answers with
  | [] => []
  | ans :: answers' =>
      (if first then [] else [EvSleep d])
      ++ EvDownload namespace name ans :: attempts_trace namespace name d false answers'
  end.

(** An answer of [Download] after which the loop of [downloadMetaInfo]
    returns: a MetaInfo, or [metainfoclient.ErrNotFound]. *)
Definition decisive (ans : MetaInfo + error) : bool :=
  match ans with
  | inl _ => true
  | inr e => bool_decide (e = metainfoclient_ErrNotFound)
  end.

(** What [downloadMetaInfo] returns after a last answer [ans]. *)
Definition fetch_result (ans : MetaInfo + error) : MetaInfo + error :=
  match ans with
  | inl mi => Ok mi
  | inr e =>
      if decide (e = metainfoclient_ErrNotFound)
      then Err storage_ErrNotFound
      else Err (Errorf "download metainfo: " (Some e))
  end.

(** A call of the fetch for [namespace] and [name] with delay [d]: a
    [Download] of that name in that namespace, or a sleep of [d]. *)
Definition is_attempt_event (namespace name : string) (d : Z) (ev : event) : bool :=
  match ev with
  | EvDownload ns n _ => bool_decide (ns = namespace) && bool_decide (n = name)
  | EvSleep d' => bool_decide (d' = d)
  | _ => false
  end.









(** The bytes offered by the first commit of a trace, if there is one. *)
Fixpoint first_commit (tr : list event) : option bytes :=
  match tr with
  | [] => None
  | EvGetOrSetMetadata _ _ b _ :: _ => Some b
  | _ :: tr' => first_commit tr'
  end.

(** Whether a trace takes turns between attempts and sleeps: a [Download]
    where [want_download] says so, a sleep after it, a [Download] after
    that, and so on. *)
Fixpoint alternates (want_download : bool) (tr : list event) : bool :=
  match tr with
  | [] => true
  | ev :: tr' =>
      (if want_download then is_download ev else is_sleep ev)
      && alternates (negb want_download) tr'
  end.

(** ** What [CreateTorrent] returns after its last call *)

(** The result [r] of a run of [CreateTorrent namespace name] with calls
    [tr], read off the last call: the error of a failed call under the
    context of its step, the error of the decoding or of the encoding that
    comes right after a call that succeeded, or what [NewTorrent] gave. *)
Definition CreateTorrent_reports (namespace name : string)
    (tr : list event) (r : Torrent + error) : Prop :=
  match last tr with
  | None => False
  | Some (EvGetMetadata _ _ (inr e0)) =>
      os_IsNotExist (Some e0) = false /\
      r = Err (Errorf "get metainfo: " (Some e0))
  | Some (EvGetMetadata _ _ (inl miRaw)) =>
      exists e, DeserializeMetaInfo miRaw = Err e /\
                r = Err (Errorf "parse metainfo: " (Some e))
  | Some (EvTimerStart _) =>
      r = Err (Errorf "download metainfo: " None)
  | Some (EvDownload _ _ (inr e)) =>
      r = Err (if decide (e = metainfoclient_ErrNotFound)
               then storage_ErrNotFound
               else Errorf "download metainfo: " (Some e))
  | Some (EvEnsureFilePresent _ _ (Some e)) =>
      r = Err (Errorf "ensure download/cache file present: " (Some e))
  | Some (EvEnsureFilePresent n len None) =>
      exists mi e,
        In (EvDownload namespace name (Ok mi)) tr /\
        n = Name mi /\ len = Length mi /\
        Serialize mi = Err e /\
        r = Err (Errorf "serialize downloaded metainfo: " (Some e))
  | Some (EvGetOrSetMetadata _ _ _ (inr e)) =>
      r = Err (Errorf "get or set metainfo: " (Some e))
  | Some (EvGetOrSetMetadata _ _ _ (inl committed)) =>
      exists e, DeserializeMetaInfo committed = Err e /\
                r = Err (Errorf "parse metainfo: " (Some e))
  | Some (EvNewTorrent _ rn) => r = initialized rn
  | Some (EvDownload _ _ (inl _))
  | Some (EvSleep _)
  | Some (EvTimerStop _)
  | Some (EvDeleteFile _ _) => False
  end.

(** A run with calls [tr] and result [r] went on from the bytes
    [committed]: when they do not decode, the run made no call of
    [NewTorrent] and its result is the error of the decoding; when they
    decode, the last call of the run is its one call of [NewTorrent], on
    the MetaInfo decoded from them, and the result is what that call gave. *)
Definition resolves_from (committed : bytes) (tr : list event)
    (r : Torrent + error) : Prop :=
  match DeserializeMetaInfo committed with
  | inr e =>
      r = Err (Errorf "parse metainfo: " (Some e)) /\
      forall mi rn, ~ In (EvNewTorrent mi rn) tr
  | inl mi =>
      exists rn,
        last tr = Some (EvNewTorrent mi rn) /\
        (forall mi' rn', In (EvNewTorrent mi' rn') tr -> mi' = mi /\ rn' = rn) /\
        r = initialized rn
  end.

(** ** The defaults of a configuration *)


End Defs.

Arguments Ret {_ A} a.
Arguments Vis {_ A X} e k.

Notation "x <- m ;; f" := (bind m (fun x => f))
  (at level 100, m at next level, right associativity).
Notation "m ;;; f" := (bind m (fun _ => f))
  (at level 100, right associativity).

(** Stepping through a run hypothesis [H : runs (Vis e k) tr p']: either
    the run stops here, or its first call is [e] with some answer. *)
Ltac runs_step H x :=
  match type of H with
  | runs _ ?tr _ =>
      let ev := fresh "ev" in
      destruct tr as [| ev tr]; simpl in H;
      [ try subst | destruct H as (x & -> & H); simpl in H ]
  end.

(** Splitting a membership in the trace of an outcome into its parts. *)
Ltac split_In H :=
  unfold miss_prefix in H;
  repeat (rewrite in_app_iff in H || simpl in H);
  repeat match type of H with
         | _ \/ _ => destruct H as [H | H]
         end;
  try discriminate H; try contradiction.


(** Membership in a trace given by its parts. *)
Ltac solve_In := repeat (rewrite in_app_iff || simpl); naive_solver.

(** ** A concrete core and environment, for examples

    A MetaInfo is its own encoding: the first byte is the declared length,
    the other bytes spell the name; the empty byte string decodes to
    nothing.  A torrent is the MetaInfo it was built from.  Defaults
    replace the fields of a configuration that are zero. *)
Definition example_externals : Externals := {|
  MetaInfo := bytes;
  Name := fun mi => string_of_list_byte (tail mi);
  Length := fun mi =>
    match mi with
    | b :: _ => Z.of_N (Byte.to_N b)
    | [] => 0
    end;
  Serialize := fun mi => Ok mi;
  DeserializeMetaInfo := fun miRaw =>
    match miRaw with
    | [] => Err (mkError false "empty metainfo")
    | _ :: _ => Ok miRaw
    end;
  Torrent := bytes;
  Bitfield := list bool;
  newBitfieldFromPieceStatusBytes := fun _ raw => map (Byte.eqb Byte.x01) raw;
  applyDefaults := fun c =>
    mkConfig
      (if (UnavailableMetaInfoRetries c =? 0)%Z then 3
       else UnavailableMetaInfoRetries c)
      (if (UnavailableMetaInfoRetrySleep c =? 0)%Z then 5
       else UnavailableMetaInfoRetrySleep c);
  metainfoclient_ErrNotFound_text := "metainfo not found";
  storage_ErrNotFound_text := "torrent not found"
|}.

(** The MetaInfo of [abc], of declared length 10, and a second MetaInfo,
    of another name. *)
Definition example_mi : @MetaInfo example_externals :=
  Byte.x0a :: list_byte_of_string "abc".

Definition other_mi : @MetaInfo example_externals :=
  Byte.x0a :: list_byte_of_string "abd".

(** A store with nothing in it, and no call received yet. *)
Definition empty_world : World := mkWorld (mkStore ∅ ∅) 0.

(** A store that holds the MetaInfo of [abc] and, as its piece status, two
    bytes that are no piece status. *)
Definition odd_status_world : World :=
  mkWorld
    (mkStore (<[("abc", TorrentMeta) := example_mi]>
                (<[("abc", PieceStatus) := [Byte.xff; Byte.x07]]> ∅))
             (<["abc" := 10]> ∅))
    0.

(** Remote sources: one that is always unavailable, one that has nothing,
    one that always answers the MetaInfo of [abc], and one that answers it
    to its first call and [other_mi] afterwards. *)
Definition always_unavailable : nat -> string -> string -> @MetaInfo example_externals + error :=
  fun _ _ _ => Err (mkError false "tracker unavailable").

Definition has_nothing : nat -> string -> string -> @MetaInfo example_externals + error :=
  fun _ _ _ => Err metainfoclient_ErrNotFound.

Definition serves_abc : nat -> string -> string -> @MetaInfo example_externals + error :=
  fun _ _ _ => Ok example_mi.

Definition serves_two : nat -> string -> string -> @MetaInfo example_externals + error :=
  fun k _ _ => match k with O => Ok example_mi | S _ => Ok other_mi end.

(** A factory that always succeeds. *)
Definition build : Store -> @MetaInfo example_externals -> @Torrent example_externals + error :=
  fun _ mi => Ok mi.

(** An archive that tries three times, five time units apart, and one
    whose retry count is zero. *)
Definition example_archive : TorrentArchive := mkTorrentArchive (mkConfig 3 5).

Definition zero_retries_archive : TorrentArchive := mkTorrentArchive (mkConfig 0 5).

(** Two callers that both miss the slot before either commits: thread 0
    reads, thread 1 reads, thread 0 runs to its end, then thread 1 does. *)
Definition racing_schedule : list nat :=
  [0; 1; 0; 0; 0; 0; 0; 0; 1; 1; 1; 1; 1; 1]%nat.

(** A store that holds piece-status bytes for [abc] and nothing else. *)
Definition status_only_world : World :=
  mkWorld (mkStore (<[("abc", PieceStatus) := [Byte.x01; Byte.x00]]> ∅) ∅) 0.

(** The racing schedule up to the commit of thread 0, and the rest of it. *)
Definition racing_schedule_start : list nat := [0; 1; 0; 0; 0; 0; 0]%nat.

Definition racing_schedule_end : list nat := [0; 1; 1; 1; 1; 1; 1]%nat.

(** * Proofs *)

Section Proofs.

Context {ext : Externals}.

(** ** Laws of [interp] *)

Lemma interp_bind {W A B : Type} (h : handler W) (m : Prog A) (f : A -> Prog B) (w : W) :
  interp h (bind m f) w =
  let '(a, w1, tr1) := interp h m w in
  let '(b, w2, tr2) := interp h (f a) w1 in
  (b, w2, tr1 ++ tr2).
Proof.
  revert w. induction m as [a | X e k IH]; intros w; simpl.
  - destruct (interp h (f a) w) as [[b w2] tr2]. reflexivity.
  - destruct (h X e w) as [x w1]. rewrite IH.
    destruct (interp h (k x) w1) as [[a w2] tr1].
    destruct (interp h (f a) w2) as [[b w3] tr2]. reflexivity.
Qed.

Lemma retry_trace_count_downloads namespace name d first errs :
  count_downloads (retry_trace namespace name d first errs) = length errs.
Proof.
  unfold count_downloads. revert first.
  induction errs as [| e errs IH]; intros first; [reflexivity |].
  destruct first; simpl; by rewrite IH.
Qed.

Lemma retry_trace_count_sleeps namespace name d first errs :
  count_sleeps (retry_trace namespace name d first errs)
  = (length errs - (if first then 1 else 0))%nat.
Proof.
  unfold count_sleeps. revert first.
  induction errs as [| e errs IH]; intros first; [by destruct first |].
  destruct first; simpl; rewrite IH; simpl; lia.
Qed.

(** ** The retry loop *)

Section Fetch.

Context {W : Type} (h : handler W) (a : TorrentArchive) (namespace name : string).

Local Abbreviation delay := (UnavailableMetaInfoRetrySleep (config a)).

(** With no iteration left the loop makes no call and reports the error of
    the previous iteration. *)
Lemma downloadMetaInfo_loop_O i err w :
  interp h (downloadMetaInfo_loop a namespace name 0 i err) w
  = (Err (Errorf "download metainfo: " err), w, []).
Proof. reflexivity. Qed.

(** One iteration of the loop, call by call. *)
Lemma downloadMetaInfo_loop_S n i err w :
  interp h (downloadMetaInfo_loop a namespace name (S n) i err) w =
  let w0 := if (0 <? i)%Z then (h unit (Sleep delay) w).2 else w in
  let pre := if (0 <? i)%Z then [EvSleep delay] else [] in
  let '(r, w1) := h _ (Download namespace name) w0 in
  match r with
  | inl mi => (Ok mi, w1, pre ++ [EvDownload namespace name (Ok mi)])
  | inr e =>
      if decide (e = metainfoclient_ErrNotFound)
      then (Err storage_ErrNotFound, w1, pre ++ [EvDownload namespace name (Err e)])
      else
        let '(r', w2, tr) :=
          interp h (downloadMetaInfo_loop a namespace name n (i + 1) (Some e)) w1 in
        (r', w2, pre ++ EvDownload namespace name (Err e) :: tr)
  end.
Proof.
  simpl. destruct (0 <? i)%Z; simpl.
  - destruct (h unit (Sleep _) w) as [[] w0]; simpl.
    destruct (h _ (Download namespace name) w0) as [[mi | e] w1]; simpl; [done |].
    destruct (decide (e = metainfoclient_ErrNotFound)); simpl; [done |].
    by destruct (interp h _ w1) as [[r' w2] tr].
  - destruct (h _ (Download namespace name) w) as [[mi | e] w1]; simpl; [done |].
    destruct (decide (e = metainfoclient_ErrNotFound)); simpl; [done |].
    by destruct (interp h _ w1) as [[r' w2] tr].
Qed.

Lemma forallb_transient_pre (i : Z) tr :
  forallb download_failed_transiently
    ((if (0 <? i)%Z then [EvSleep delay] else []) ++ tr)
  = forallb download_failed_transiently tr.
Proof. by destruct (0 <? i)%Z. Qed.

(** When every attempt fails transiently, the loop runs all its [n]
    iterations and reports the last error. *)
Lemma downloadMetaInfo_loop_transient n : forall i err w,
  0 <= i ->
  forallb download_failed_transiently
    (trace_of (interp h (downloadMetaInfo_loop a namespace name n i err) w)) = true ->
  exists errs : list error,
    length errs = n /\
    trace_of (interp h (downloadMetaInfo_loop a namespace name n i err) w)
      = retry_trace namespace name delay (negb (0 <? i)%Z) errs /\
    result_of (interp h (downloadMetaInfo_loop a namespace name n i err) w)
      = Err (Errorf "download metainfo: " (from_option Some err (last errs))).
Proof.
  induction n as [| n IH]; intros i err w Hi.
  - exists []. by repeat split.
  - rewrite downloadMetaInfo_loop_S. cbv zeta.
    destruct (h _ (Download namespace name) _) as [[mi | e] w1].
    { unfold trace_of; simpl. rewrite forallb_transient_pre. simpl. discriminate. }
    destruct (decide (e = metainfoclient_ErrNotFound)) as [-> | Hne].
    { unfold trace_of; simpl. rewrite forallb_transient_pre. simpl. discriminate. }
    specialize (IH (i + 1) (Some e) w1 ltac:(lia)).
    replace (0 <? i + 1)%Z with true in IH by (symmetry; apply Z.ltb_lt; lia).
    unfold trace_of, result_of in *.
    destruct (interp h _ w1) as [[r' w2] tr]; simpl in *.
    rewrite forallb_transient_pre. simpl.
    rewrite bool_decide_eq_false_2 by done. simpl. intros Htr.
    destruct (IH Htr) as (errs & Hlen & -> & ->).
    exists (e :: errs). split; [simpl; lia |]. split.
    + by destruct (0 <? i)%Z.
    + do 2 f_equal. rewrite last_cons. by destruct (last errs).
Qed.


(** C2: with a retry count [K >= 1] and a client whose every [Download]
    fails with an error other than [metainfoclient.ErrNotFound],
    [downloadMetaInfo] makes exactly [K] attempts, sleeps the configured
    delay before each attempt but the first, and returns the error
    [download metainfo: <text of the last error>]. *)
Theorem downloadMetaInfo_transient_exhausts (w : W) :
  1 <= UnavailableMetaInfoRetries (config a) ->
  forallb download_failed_transiently
    (trace_of (interp h (downloadMetaInfo a namespace name) w)) = true ->
  exists (errs : list error) (e_last : error),
    length errs = Z.to_nat (UnavailableMetaInfoRetries (config a)) /\
    last errs = Some e_last /\
    trace_of (interp h (downloadMetaInfo a namespace name) w)
      = retry_trace namespace name (UnavailableMetaInfoRetrySleep (config a)) true errs /\
    count_downloads (trace_of (interp h (downloadMetaInfo a namespace name) w))
      = Z.to_nat (UnavailableMetaInfoRetries (config a)) /\
    count_sleeps (trace_of (interp h (downloadMetaInfo a namespace name) w))
      = (Z.to_nat (UnavailableMetaInfoRetries (config a)) - 1)%nat /\
    result_of (interp h (downloadMetaInfo a namespace name) w)
      = Err (Errorf "download metainfo: " (Some e_last)).
Proof.
  intros HK Htr. unfold downloadMetaInfo in *.
  destruct (downloadMetaInfo_loop_transient _ 0 None w ltac:(lia) Htr)
    as (errs & Hlen & Htrace & Hres).
  simpl in Htrace.
  destruct (last errs) as [e_last |] eqn:Hlast.
  - exists errs, e_last. rewrite Htrace, Hres.
    rewrite retry_trace_count_downloads, retry_trace_count_sleeps, Hlen.
    by repeat split.
  - apply last_None in Hlast. subst errs. simpl in Hlen. lia.
Qed.


(** C4: when the first [Download] answers [metainfoclient.ErrNotFound],
    that call is the only one [downloadMetaInfo] makes (one attempt, no
    sleep) and the result is [storage.ErrNotFound]. *)
Theorem downloadMetaInfo_not_found_short_circuit (w : W) :
  List.find is_download (trace_of (interp h (downloadMetaInfo a namespace name) w))
    = Some (EvDownload namespace name (Err metainfoclient_ErrNotFound)) ->
  trace_of (interp h (downloadMetaInfo a namespace name) w)
    = [EvDownload namespace name (Err metainfoclient_ErrNotFound)] /\
  count_downloads (trace_of (interp h (downloadMetaInfo a namespace name) w)) = 1%nat /\
  count_sleeps (trace_of (interp h (downloadMetaInfo a namespace name) w)) = 0%nat /\
  result_of (interp h (downloadMetaInfo a namespace name) w) = Err storage_ErrNotFound.
Proof.
  unfold downloadMetaInfo.
  destruct (Z.to_nat (UnavailableMetaInfoRetries (config a))) as [| n].
  - rewrite downloadMetaInfo_loop_O. discriminate.
  - rewrite downloadMetaInfo_loop_S. cbv zeta. simpl.
    destruct (h _ (Download namespace name) w) as [[mi | e] w1]; [discriminate |].
    destruct (decide (e = metainfoclient_ErrNotFound)) as [-> | Hne]; [done |].
    destruct (interp h _ w1) as [[r' w2] tr]. simpl. intros [=]. done.
Qed.

End Fetch.

(** ** Runs *)

Lemma runs_Ret_inv {A : Type} (a : A) tr p' :
  runs (Ret a) tr p' -> tr = [] /\ p' = Ret a.
Proof. destruct tr; simpl; [by intros <- | done]. Qed.

Lemma runs_app {A : Type} (p p1 p2 : Prog A) tr1 tr2 :
  runs p tr1 p1 -> runs p1 tr2 p2 -> runs p (tr1 ++ tr2) p2.
Proof.
  revert p. induction tr1 as [| ev tr1 IH]; intros p; simpl.
  - by intros ->.
  - destruct p as [a | X e k]; [done |].
    intros (x & -> & H) H2. exists x. split; [done |]. by apply IH.
Qed.

Lemma runs_snoc {A X : Type} (p : Prog A) tr (e : Eff X) k x :
  runs p tr (Vis e k) -> runs p (tr ++ [observe e x]) (k x).
Proof.
  intros H. apply (runs_app _ _ _ _ _ H). simpl. by exists x.
Qed.

(** What [interp] records is a run, in whatever environment. *)
Lemma interp_runs {W A : Type} (h : handler W) (p : Prog A) (w : W) :
  runs p (trace_of (interp h p w)) (Ret (result_of (interp h p w))).
Proof.
  revert w. induction p as [a | X e k IH]; intros w; simpl; [done |].
  destruct (h X e w) as [x w1]. specialize (IH x w1).
  destruct (interp h (k x) w1) as [[a w2] tr]. by exists x.
Qed.

(** A run of [bind m f] is a run of [m], stopped or followed by a run of
    [f] on what [m] returned. *)
Lemma runs_bind {A B : Type} (m : Prog A) (f : A -> Prog B) tr p' :
  runs (bind m f) tr p' ->
  (exists m', runs m tr m' /\ p' = bind m' f) \/
  (exists a tr1 tr2, tr = tr1 ++ tr2 /\ runs m tr1 (Ret a) /\ runs (f a) tr2 p').
Proof.
  revert m. induction tr as [| ev tr IH]; intros m; simpl.
  - intros <-. left. by exists m.
  - destruct m as [a | X e k]; simpl.
    + intros H. right. exists a, [], (ev :: tr). by repeat split.
    + intros (x & -> & H). destruct (IH _ H) as [(m' & Hm & ->) | (a & tr1 & tr2 & -> & H1 & H2)].
      * left. exists m'. split; [| done]. by exists x.
      * right. exists a, (observe e x :: tr1), tr2. repeat split; [| done]. by exists x.
Qed.

(** ** Runs of the retry loop *)

Lemma downloadMetaInfo_loop_runs (a : TorrentArchive) (namespace name : string) n :
  forall i err tr m',
  runs (downloadMetaInfo_loop a namespace name n i err) tr m' ->
  forallb is_fetch_event tr = true /\
  (forall ns' n' mi, In (EvDownload ns' n' (Ok mi)) tr -> m' = Ret (Ok mi)) /\
  (forall ns' n', In (EvDownload ns' n' (Err metainfoclient_ErrNotFound)) tr ->
     m' = Ret (Err storage_ErrNotFound)) /\
  (forall mi, m' = Ret (Ok mi) -> In (EvDownload namespace name (Ok mi)) tr) /\
  (forall e, m' = Ret (Err e) ->
     (e = storage_ErrNotFound /\
      In (EvDownload namespace name (Err metainfoclient_ErrNotFound)) tr) \/
     (exists cause, e = Errorf "download metainfo: " cause)).
Proof.
  induction n as [| n IH]; intros i err tr m' H.
  - simpl in H. apply runs_Ret_inv in H as [-> ->].
    repeat split; try (by intros; simpl in *; try done).
    intros e [= <-]. right. by eexists.
  - assert (Hbody : forall tr,
      runs (r <- call (Download namespace name) ;;
            match r with
            | inr e =>
                if decide (e = metainfoclient_ErrNotFound)
                then Ret (Err storage_ErrNotFound)
                else downloadMetaInfo_loop a namespace name n (i + 1) (Some e)
            | inl mi => Ret (Ok mi)
            end) tr m' ->
      forallb is_fetch_event tr = true /\
      (forall ns' n' mi, In (EvDownload ns' n' (Ok mi)) tr -> m' = Ret (Ok mi)) /\
      (forall ns' n', In (EvDownload ns' n' (Err metainfoclient_ErrNotFound)) tr ->
         m' = Ret (Err storage_ErrNotFound)) /\
      (forall mi, m' = Ret (Ok mi) -> In (EvDownload namespace name (Ok mi)) tr) /\
      (forall e, m' = Ret (Err e) ->
         (e = storage_ErrNotFound /\
          In (EvDownload namespace name (Err metainfoclient_ErrNotFound)) tr) \/
         (exists cause, e = Errorf "download metainfo: " cause))).
    { clear tr H. intros tr H. simpl in H. runs_step H r.
      { repeat split; by intros. }
      destruct r as [mi | e].
      { apply runs_Ret_inv in H as [-> ->]. repeat split.
        - by intros ns' n' mi' [[= _ _ ->] | []].
        - by intros ns' n' [[=] | []].
        - intros mi' [= ->]. by left.
        - by intros e [=]. }
      destruct (decide (e = metainfoclient_ErrNotFound)) as [-> | Hne].
      { apply runs_Ret_inv in H as [-> ->]. repeat split.
        - by intros ns' n' mi' [[=] | []].
        - by intros mi' [=].
        - intros e [= <-]. left. split; [done | by left]. }
      destruct (IH _ _ _ _ H) as (H1 & H2 & H3 & H4 & H5). repeat split.
      - done.
      - intros ns' n' mi' [[=] | Hin]. by eapply H2.
      - intros ns' n' [[= _ _ ->] | Hin]; [done |]. by eapply H3.
      - intros mi' Hm. right. by apply H4.
      - intros e' Hm. destruct (H5 e' Hm) as [[-> Hin] | Hc]; [left | by right].
        split; [done | by right]. }
    simpl in H. destruct (0 <? i)%Z; simpl in H; [| by apply Hbody].
    runs_step H u; [repeat split; by intros |].
    destruct (Hbody _ H) as (H1 & H2 & H3 & H4 & H5). repeat split.
    + done.
    + intros ns' n' mi' [[=] | Hin]. by eapply H2.
    + intros ns' n' [[=] | Hin]. by eapply H3.
    + intros mi' Hm. right. by apply H4.
    + intros e' Hm. destruct (H5 e' Hm) as [[-> Hin] | Hc]; [left | by right].
      split; [done | by right].
Qed.

Lemma parse_and_initialize_runs miRaw tr r :
  runs (parse_and_initialize miRaw) tr (Ret r) -> parse_outcome miRaw tr r.
Proof.
  unfold parse_and_initialize. intros H.
  destruct (DeserializeMetaInfo miRaw) as [mi | err] eqn:Hd.
  - simpl in H. runs_step H rn; [done |].
    destruct rn as [t | err]; apply runs_Ret_inv in H as [-> [= ->]].
    + by apply (PO_decoded _ mi (Ok t)).
    + by apply (PO_decoded _ mi (Err err)).
  - apply runs_Ret_inv in H as [-> [= ->]]. by constructor.
Qed.

Lemma CreateTorrent_runs a namespace name tr r :
  runs (CreateTorrent a namespace name) tr (Ret r) ->
  CreateTorrent_outcome a namespace name tr r.
Proof.
  unfold CreateTorrent. intros H. simpl in H. runs_step H r0; [done |].
  destruct (os_IsNotExist (err_of r0)) eqn:Hne.
  - destruct r0 as [miRaw | e0]; [done |]. simpl in Hne.
    runs_step H u; [done |].
    apply runs_bind in H as [(m' & Hm & Heq) | (rf & trf & tr2 & -> & Hf & H)].
    { destruct m' as [[mi | err] |]; simpl in Heq; try discriminate.
      injection Heq as ->. by apply CT_fetch_failed. }
    destruct rf as [mi | err].
    2: { apply runs_Ret_inv in H as [-> [= ->]]. rewrite app_nil_r.
         by apply CT_fetch_failed. }
    simpl in H. runs_step H u'; [done |]. runs_step H re; [done |].
    destruct re as [err |].
    { apply runs_Ret_inv in H as [-> [= ->]]. by apply CT_ensure_failed. }
    destruct (Serialize mi) as [miRaw | err] eqn:Hs.
    2: { apply runs_Ret_inv in H as [-> [= ->]]. by apply CT_serialize_failed. }
    simpl in H. runs_step H rg; [done |].
    destruct rg as [committed | err].
    2: { apply runs_Ret_inv in H as [-> [= ->]]. by eapply CT_commit_failed. }
    apply parse_and_initialize_runs in H.
    by apply (CT_committed _ _ _ e0 trf mi miRaw committed).
  - destruct r0 as [miRaw | e0].
    + apply CT_present. by apply parse_and_initialize_runs.
    + apply runs_Ret_inv in H as [-> [= ->]]. by apply CT_read_failed.
Qed.

Lemma downloadMetaInfo_runs a namespace name tr m' :
  runs (downloadMetaInfo a namespace name) tr m' ->
  forallb is_fetch_event tr = true /\
  (forall ns' n' mi, In (EvDownload ns' n' (Ok mi)) tr -> m' = Ret (Ok mi)) /\
  (forall ns' n', In (EvDownload ns' n' (Err metainfoclient_ErrNotFound)) tr ->
     m' = Ret (Err storage_ErrNotFound)) /\
  (forall mi, m' = Ret (Ok mi) -> In (EvDownload namespace name (Ok mi)) tr) /\
  (forall e, m' = Ret (Err e) ->
     (e = storage_ErrNotFound /\
      In (EvDownload namespace name (Err metainfoclient_ErrNotFound)) tr) \/
     (exists cause, e = Errorf "download metainfo: " cause)).
Proof. apply downloadMetaInfo_loop_runs. Qed.

Lemma fetch_event_In tr ev :
  forallb is_fetch_event tr = true -> In ev tr -> is_fetch_event ev = true.
Proof. rewrite forallb_forall. auto. Qed.

Lemma parse_outcome_stage miRaw tr e :
  parse_outcome miRaw tr (Err e) ->
  exists stage cause, In stage CreateTorrent_stages /\ e = Errorf stage cause.
Proof.
  inversion 1 as [err Hd | mi rn Hd]; subst.
  - exists "parse metainfo: ", (Some err). split; [| done]. simpl. tauto.
  - destruct rn as [t | err]; [discriminate |]. simpl in *.
    exists "initialize torrent: ", (Some err). split; [simpl; tauto | congruence].
Qed.

(** ** The resolver against any environment *)

Section Resolver.

Context {W : Type} (h : handler W) (a : TorrentArchive) (namespace name : string).

(** When a [Download] answers [metainfoclient.ErrNotFound],
    [CreateTorrent] returns [storage.ErrNotFound] itself, with no context
    around it; every other error of [CreateTorrent] is a text that starts
    with the context of one of its steps. *)
Lemma CreateTorrent_failure_stages (w : W) :
  (forall ns' n',
     In (EvDownload ns' n' (Err metainfoclient_ErrNotFound))
        (trace_of (interp h (CreateTorrent a namespace name) w)) ->
     result_of (interp h (CreateTorrent a namespace name) w) = Err storage_ErrNotFound) /\
  (forall e,
     result_of (interp h (CreateTorrent a namespace name) w) = Err e ->
     (e = storage_ErrNotFound /\
      In (EvDownload namespace name (Err metainfoclient_ErrNotFound))
         (trace_of (interp h (CreateTorrent a namespace name) w))) \/
     (exists stage cause, In stage CreateTorrent_stages /\ e = Errorf stage cause)).
Proof.
  pose proof (CreateTorrent_runs _ _ _ _ _ (interp_runs h (CreateTorrent a namespace name) w)) as Hout.
  destruct (interp h (CreateTorrent a namespace name) w) as [[r w'] tr].
  unfold trace_of, result_of in *. simpl in *. split.
  - intros ns' n' Hin.
    inversion Hout as
      [ miRaw tr' r' Hp | e0 Hne | e0 trf err Hne Hf | e0 trf mi err Hne Hf
      | e0 trf mi err Hne Hf Hs | e0 trf mi miRaw err Hne Hf Hs
      | e0 trf mi miRaw committed tr' r' Hne Hf Hs Hp ]; subst;
      try (inversion Hp; subst); split_In Hin;
      apply downloadMetaInfo_runs in Hf as (_ & _ & H3 & _);
      specialize (H3 _ _ Hin); congruence.
  - intros e ->.
    inversion Hout as
      [ miRaw tr' r' Hp | e0 Hne | e0 trf err Hne Hf | e0 trf mi err Hne Hf
      | e0 trf mi err Hne Hf Hs | e0 trf mi miRaw err Hne Hf Hs
      | e0 trf mi miRaw committed tr' r' Hne Hf Hs Hp ]; subst.
    + right. by eapply parse_outcome_stage.
    + right. eexists "get metainfo: ", _. split; [simpl; tauto | done].
    + apply downloadMetaInfo_runs in Hf as (_ & _ & _ & _ & H5).
      destruct (H5 _ eq_refl) as [[-> Hin] | [cause ->]].
      * left. split; [done |]. unfold miss_prefix. simpl. tauto.
      * right. eexists "download metainfo: ", _. split; [simpl; tauto | done].
    + right. eexists "ensure download/cache file present: ", _.
      split; [simpl; tauto | done].
    + right. eexists "serialize downloaded metainfo: ", _.
      split; [simpl; tauto | done].
    + right. eexists "get or set metainfo: ", _. split; [simpl; tauto | done].
    + right. by eapply parse_outcome_stage.
Qed.

End Resolver.

Lemma thread_trace_app i tr1 tr2 :
  thread_trace i (tr1 ++ tr2) = thread_trace i tr1 ++ thread_trace i tr2.
Proof. unfold thread_trace. by rewrite List.filter_app, map_app. Qed.

Lemma thread_trace_In i tr ev : In ev (thread_trace i tr) <-> In (i, ev) tr.
Proof.
  unfold thread_trace. rewrite in_map_iff. split.
  - intros ([j ev'] & Hev & Hin). apply List.filter_In in Hin as [Hin Hj].
    simpl in *. apply Nat.eqb_eq in Hj. by subst.
  - intros Hin. exists (i, ev). split; [done |].
    apply List.filter_In. split; [done |]. simpl. apply Nat.eqb_refl.
Qed.

Lemma run_pool_snoc {W A : Type} (h : handler W) sched i (st : pool_state W A) :
  run_pool h (sched ++ [i]) st = pool_step h (run_pool h sched st) i.
Proof. unfold run_pool. by rewrite fold_left_app. Qed.

(** In any schedule every thread has made a run of its own program. *)
Lemma run_pool_runs {W A : Type} (h : handler W) sched (pool0 : list (Prog A)) w0 :
  forall i p0, pool0 !! i = Some p0 ->
  exists p, (run_pool h sched (pool0, w0, [])).1.1 !! i = Some p /\
            runs p0 (thread_trace i (run_pool h sched (pool0, w0, [])).2) p.
Proof.
  induction sched as [| j sched IH] using rev_ind; intros i p0 Hi.
  - exists p0. by split.
  - rewrite run_pool_snoc. destruct (IH i p0 Hi) as (p & Hp & Hruns).
    destruct (run_pool h sched (pool0, w0, [])) as [[pool w] tr]. simpl in *.
    destruct (pool !! j) as [[r | X e k] |] eqn:Hj; simpl; eauto.
    destruct (h X e w) as [x w1]. simpl.
    rewrite thread_trace_app. unfold thread_trace at 2. simpl.
    destruct (decide (j = i)) as [-> | Hne].
    + rewrite Nat.eqb_refl. simpl. exists (k x). split.
      * apply list_lookup_insert_eq. by eapply lookup_lt_Some.
      * rewrite Hj in Hp. injection Hp as <-. by apply runs_snoc.
    + replace (j =? i)%nat with false by (symmetry; by apply Nat.eqb_neq).
      simpl. rewrite app_nil_r. exists p. split; [| done].
      by rewrite list_lookup_insert_ne.
Qed.

(** ** The order of the calls of [CreateTorrent] *)

Lemma follows_app ok seen l1 l2 :
  follows ok seen (l1 ++ l2) <-> follows ok seen l1 /\ follows ok (seen ++ l1) l2.
Proof.
  revert seen. induction l1 as [| ev l1 IH]; intros seen; simpl.
  - rewrite app_nil_r. tauto.
  - rewrite IH, <- app_assoc. simpl. tauto.
Qed.

Lemma follows_split ok l1 ev l2 : follows ok [] (l1 ++ ev :: l2) -> ok l1 ev.
Proof. rewrite follows_app. simpl. tauto. Qed.

Lemma follows_fetch namespace name seen tr :
  forallb is_fetch_event tr = true ->
  follows (CreateTorrent_call_ok namespace name) seen tr.
Proof.
  revert seen. induction tr as [| ev tr IH]; intros seen; simpl; [done |].
  intros [Hev Htr]%andb_prop. split; [| by apply IH].
  by destruct ev.
Qed.

Lemma parse_and_initialize_prefix miRaw tr p' :
  runs (parse_and_initialize miRaw) tr p' ->
  tr = [] \/ exists mi rn, DeserializeMetaInfo miRaw = Ok mi /\ tr = [EvNewTorrent mi rn].
Proof.
  unfold parse_and_initialize. intros Hr.
  destruct (DeserializeMetaInfo miRaw) as [mi | err] eqn:Hd.
  - simpl in Hr. runs_step Hr rn; [by left |]. right. exists mi, rn. split; [done |].
    destruct rn; apply runs_Ret_inv in Hr as [-> _]; done.
  - apply runs_Ret_inv in Hr as [-> _]. by left.
Qed.

(** Every run of [CreateTorrent], complete or not, makes its calls in this
    order. *)
Lemma CreateTorrent_follows a namespace name tr p' :
  runs (CreateTorrent a namespace name) tr p' ->
  follows (CreateTorrent_call_ok namespace name) [] tr.
Proof.
  unfold CreateTorrent. intros Hr. simpl in Hr. runs_step Hr r0; [done |].
  simpl. split; [done |].
  destruct (os_IsNotExist (err_of r0)) eqn:Hne.
  - destruct r0 as [miRaw | e0]; [done |].
    runs_step Hr u; [done |]. simpl. split; [done |].
    apply runs_bind in Hr as [(m' & Hm & Heq) | (rf & trf & tr2 & -> & Hf & Hr)].
    { apply downloadMetaInfo_loop_runs in Hm as [Hfe _]. by apply follows_fetch. }
    apply downloadMetaInfo_loop_runs in Hf as (Hfe & _ & _ & Hok & _).
    apply follows_app. split; [by apply follows_fetch |].
    destruct rf as [mi | err]; [| by apply runs_Ret_inv in Hr as [-> _]].
    specialize (Hok mi eq_refl).
    simpl in Hr. runs_step Hr u'; [done |]. simpl. split; [done |].
    runs_step Hr re; [done |]. simpl. split; [exists mi; solve_In |].
    destruct re as [err |]; [by apply runs_Ret_inv in Hr as [-> _] |].
    destruct (Serialize mi) as [miRaw | err] eqn:Hs;
      [| by apply runs_Ret_inv in Hr as [-> _]].
    simpl in Hr. runs_step Hr rg; [done |]. simpl.
    split; [split; [done |]; split; [done |]; exists mi; solve_In |].
    destruct rg as [committed | err]; [| by apply runs_Ret_inv in Hr as [-> _]].
    apply parse_and_initialize_prefix in Hr as [-> | (mi' & rn & Hd & ->)]; [done |].
    simpl. split; [| done]. exists committed. split; [done |]. right.
    exists miRaw. solve_In.
  - destruct r0 as [miRaw | e0]; [| by apply runs_Ret_inv in Hr as [-> _]].
    apply parse_and_initialize_prefix in Hr as [-> | (mi' & rn & Hd & ->)]; [done |].
    simpl. split; [| done]. exists miRaw. split; [done |]. left. solve_In.
Qed.

(** ** Reads, deletion, and the path of a present slot *)

Section Operations.

Context {W : Type} (h : handler W) (a : TorrentArchive) (namespace name : string).

(** C6, as the code has it: when the store answers the read of the
    MetaInfo slot with an error for which [os.IsNotExist] holds,
    [GetTorrent] fails with the fresh error [get metainfo: <text>], on which
    [os.IsNotExist] no longer holds; the read is its only call, so no
    [Download] is made. *)
Theorem GetTorrent_absent_slot (w : W) (e0 : error) :
  (h _ (GetMetadata name TorrentMeta) w).1 = Err e0 ->
  os_IsNotExist (Some e0) = true ->
  result_of (interp h (GetTorrent a namespace name) w)
    = Err (mkError false ("get metainfo: " ++ Error e0)%string) /\
  os_IsNotExist (err_of (result_of (interp h (GetTorrent a namespace name) w))) = false /\
  trace_of (interp h (GetTorrent a namespace name) w)
    = [EvGetMetadata name TorrentMeta (Err e0)] /\
  count_downloads (trace_of (interp h (GetTorrent a namespace name) w)) = 0%nat.
Proof.
  intros Hr _. unfold GetTorrent, result_of, trace_of. simpl.
  destruct (h _ (GetMetadata name TorrentMeta) w) as [r w1]. simpl in Hr. subst r.
  by simpl.
Qed.

(** C7, as the code has it: [Stat] returns the error of a failed read of
    either slot as it is (so NotExist for an absent slot), fails with
    [deserialize metainfo: <text>] when the MetaInfo bytes do not decode,
    and accepts whatever bytes the piece-status slot holds; its only calls
    are reads of the two slots. *)
Theorem Stat_outcomes (w : W) :
  (forall e,
     (h _ (GetMetadata name TorrentMeta) w).1 = Err e ->
     result_of (interp h (Stat a namespace name) w) = Err e) /\
  (forall miRaw e,
     (h _ (GetMetadata name TorrentMeta) w).1 = Ok miRaw ->
     DeserializeMetaInfo miRaw = Err e ->
     result_of (interp h (Stat a namespace name) w)
       = Err (mkError false ("deserialize metainfo: " ++ Error e)%string)) /\
  (forall miRaw mi e,
     (h _ (GetMetadata name TorrentMeta) w).1 = Ok miRaw ->
     DeserializeMetaInfo miRaw = Ok mi ->
     (h _ (GetMetadata name PieceStatus) (h _ (GetMetadata name TorrentMeta) w).2).1 = Err e ->
     result_of (interp h (Stat a namespace name) w) = Err e) /\
  (forall miRaw mi raw,
     (h _ (GetMetadata name TorrentMeta) w).1 = Ok miRaw ->
     DeserializeMetaInfo miRaw = Ok mi ->
     (h _ (GetMetadata name PieceStatus) (h _ (GetMetadata name TorrentMeta) w).2).1 = Ok raw ->
     result_of (interp h (Stat a namespace name) w)
       = Ok (NewTorrentInfo mi (newBitfieldFromPieceStatusBytes name raw))) /\
  forallb is_read (trace_of (interp h (Stat a namespace name) w)) = true /\
  count_downloads (trace_of (interp h (Stat a namespace name) w)) = 0%nat.
Proof.
  unfold Stat, result_of, trace_of, count_downloads, Errorf. simpl.
  destruct (h _ (GetMetadata name TorrentMeta) w) as [[miRaw | e] w1]; simpl.
  2: { repeat split; intros; simplify_eq/=; first [done | congruence]. }
  destruct (DeserializeMetaInfo miRaw) as [mi | e] eqn:Hd; simpl.
  2: { repeat split; intros; simplify_eq/=; first [done | congruence]. }
  destruct (h _ (GetMetadata name PieceStatus) w1) as [[raw | e] w2]; simpl;
    repeat split; intros; simplify_eq/=; first [done | congruence].
Qed.

(** What [DeleteTorrent] makes of the answer of the store. *)
Lemma DeleteTorrent_outcome (w : W) :
  result_of (interp h (DeleteTorrent a name) w)
    = (let r := (h _ (DeleteDownloadOrCacheFile name) w).1 in
       if os_IsNotExist r then None else r) /\
  world_of (interp h (DeleteTorrent a name) w)
    = (h _ (DeleteDownloadOrCacheFile name) w).2 /\
  trace_of (interp h (DeleteTorrent a name) w)
    = [EvDeleteFile name (h _ (DeleteDownloadOrCacheFile name) w).1].
Proof.
  unfold DeleteTorrent, result_of, world_of, trace_of. simpl.
  destruct (h _ (DeleteDownloadOrCacheFile name) w) as [[e |] w1]; simpl; [| done].
  by destruct e as [| | [] msg].
Qed.

(** C10: when the read of the MetaInfo slot does not answer NotExist (the
    slot is there, or the read failed otherwise), [CreateTorrent] and
    [GetTorrent] are the same run: same result, same environment left
    behind, same calls; these are the read and at most one [NewTorrent],
    so no fetch, no file allocation and no write to the store. *)
Theorem CreateTorrent_GetTorrent_present (w : W) :
  os_IsNotExist (err_of (h _ (GetMetadata name TorrentMeta) w).1) = false ->
  interp h (CreateTorrent a namespace name) w = interp h (GetTorrent a namespace name) w /\
  count_downloads (trace_of (interp h (CreateTorrent a namespace name) w)) = 0%nat /\
  forallb (fun ev => negb (is_write ev) && negb (is_fetch_event ev))
          (trace_of (interp h (CreateTorrent a namespace name) w)) = true /\
  exists tr,
    trace_of (interp h (CreateTorrent a namespace name) w)
      = EvGetMetadata name TorrentMeta (h _ (GetMetadata name TorrentMeta) w).1 :: tr /\
    (tr = [] \/ exists mi rn, tr = [EvNewTorrent mi rn]).
Proof.
  intros Hne. unfold CreateTorrent, GetTorrent, trace_of, count_downloads. simpl.
  destruct (h _ (GetMetadata name TorrentMeta) w) as [r w1]. simpl in Hne.
  rewrite Hne. destruct r as [miRaw | e]; simpl.
  2: { repeat split; try done. exists []. split; [done | by left]. }
  unfold parse_and_initialize.
  destruct (DeserializeMetaInfo miRaw) as [mi | e]; simpl.
  2: { repeat split; try done. exists []. split; [done | by left]. }
  destruct (h _ (NewTorrent mi) w1) as [rn w2]; simpl.
  destruct rn as [t | e]; simpl; (repeat split; try done);
    eexists; (split; [done |]); right; by eexists _, _.
Qed.

End Operations.

(** ** Pools of [CreateTorrent] callers *)

Lemma run_pool_length {W A : Type} (h : handler W) sched (st : pool_state W A) :
  length (pool_threads (run_pool h sched st)) = length (pool_threads st).
Proof.
  induction sched as [| j sched IH] using rev_ind; [done |].
  rewrite run_pool_snoc, <- IH.
  destruct (run_pool h sched st) as [[pool w] tr]. unfold pool_threads. simpl.
  destruct (pool !! j) as [[r | X e k] |]; simpl; try done.
  destruct (h X e w) as [x w1]. simpl. by rewrite length_insert.
Qed.

(** Induction on the steps of a pool of [CreateTorrent] callers: a property
    of the environment and the trace holds after every schedule when it
    holds at the start and every call that fits the order of the calls of
    its thread keeps it. *)
Lemma CreateTorrent_callers_ind {W : Type} (h : handler W)
    (a : TorrentArchive) (nss : list string) (name : string)
    (P : W -> list (nat * event) -> Prop) (w0 : W) :
  P w0 [] ->
  (forall w tr j namespace (X : Type) (e : Eff X),
     P w tr ->
     nss !! j = Some namespace ->
     CreateTorrent_call_ok namespace name (thread_trace j tr) (observe e (h X e w).1) ->
     P (h X e w).2 (tr ++ [(j, observe e (h X e w).1)])) ->
  forall sched,
    P (pool_world (run_pool h sched (CreateTorrent_callers a nss name, w0, [])))
      (pool_trace (run_pool h sched (CreateTorrent_callers a nss name, w0, []))).
Proof.
  intros H0 Hstep. induction sched as [| j sched IH] using rev_ind; [done |].
  pose proof (run_pool_runs h (sched ++ [j]) (CreateTorrent_callers a nss name) w0 j) as Hruns.
  pose proof (run_pool_length h sched (CreateTorrent_callers a nss name, w0, [])) as Hlen.
  rewrite run_pool_snoc in *.
  destruct (run_pool h sched (CreateTorrent_callers a nss name, w0, [])) as [[pool w] tr].
  unfold pool_world, pool_trace, pool_threads in *. simpl in *.
  destruct (pool !! j) as [[r | X e k] |] eqn:Hj; simpl; try done.
  assert (Hlt : (j < length nss)%nat).
  { apply lookup_lt_Some in Hj. unfold CreateTorrent_callers in Hlen.
    rewrite length_map in Hlen. lia. }
  destruct (lookup_lt_is_Some_2 nss j Hlt) as [namespace Hns].
  specialize (Hruns (CreateTorrent a namespace name)).
  destruct (h X e w) as [x w1] eqn:Hh. simpl in *.
  destruct Hruns as (p & _ & Hr).
  { unfold CreateTorrent_callers. by rewrite list_lookup_fmap, Hns. }
  apply CreateTorrent_follows in Hr.
  rewrite thread_trace_app in Hr. unfold thread_trace at 2 in Hr. simpl in Hr.
  rewrite Nat.eqb_refl in Hr. simpl in Hr. apply follows_split in Hr.
  specialize (Hstep w tr j namespace X e IH Hns). rewrite Hh in Hstep. by apply Hstep.
Qed.

Section InMemory.

Variable client : nat -> string -> string -> MetaInfo + error.
Variable factory : Store -> MetaInfo -> Torrent + error.

(** The deletion step of the in-memory store. *)
Lemma in_memory_delete name (w : World) :
  in_memory client factory _ (DeleteDownloadOrCacheFile name) w
  = match files (store w) !! name with
    | Some _ =>
        (None,
         mkWorld (mkStore (delete (name, TorrentMeta)
                             (delete (name, PieceStatus) (metadata (store w))))
                          (delete name (files (store w))))
                 (fetches w))
    | None => (Some os_ErrNotExist, w)
    end.
Proof. reflexivity. Qed.

(** Only a deletion empties a MetaInfo slot. *)
Lemma in_memory_slot_stable {X : Type} (e : Eff X) (w : World) name c :
  (forall n r, observe e (in_memory client factory X e w).1 <> EvDeleteFile n r) ->
  slot name w = Some c ->
  slot name (in_memory client factory X e w).2 = Some c.
Proof.
  unfold slot. intros Hnd Hs.
  destruct e as [n md | n md b | n len | n | ns n | d | t | t | mi]; simpl in *;
    try done.
  - by destruct (metadata (store w) !! (n, md)).
  - destruct (metadata (store w) !! (n, md)) eqn:Hl; simpl; [done |].
    rewrite lookup_insert_ne; [done |]. intros [= -> ->]. congruence.
  - by destruct (files (store w) !! n).
  - destruct (files (store w) !! n); simpl in *; [| done]. by destruct (Hnd n None).
Qed.

(** What the store answers to a read or a commit of a MetaInfo slot is in
    the slot afterwards. *)
Lemma in_memory_answer {X : Type} (e : Eff X) (w : World) name c :
  match observe e (in_memory client factory X e w).1 with
  | EvGetMetadata n md _ | EvGetOrSetMetadata n md _ _ => n = name /\ md = TorrentMeta
  | _ => True
  end ->
  store_answer (observe e (in_memory client factory X e w).1) = Some c ->
  slot name (in_memory client factory X e w).2 = Some c.
Proof.
  unfold slot.
  destruct e as [n md | n md b | n len | n | ns n | d | t | t | mi]; simpl;
    try done.
  - intros [-> ->]. destruct (metadata (store w) !! (name, TorrentMeta)) eqn:Hl; simpl;
      [congruence | done].
  - intros [-> ->]. destruct (metadata (store w) !! (name, TorrentMeta)) eqn:Hl; simpl.
    + congruence.
    + intros [= ->]. by rewrite lookup_insert_eq.
Qed.

Lemma CreateTorrent_call_ok_not_delete namespace name seen ev n r :
  CreateTorrent_call_ok namespace name seen ev -> ev <> EvDeleteFile n r.
Proof. by intros Hok ->. Qed.

(** In every interleaving of [CreateTorrent] callers for one name, the
    bytes the store answered to any of them are the bytes now in the slot. *)
Lemma CreateTorrent_callers_answers a nss name w0 sched :
  forall i ev c,
    In (i, ev) (pool_trace (run_pool (in_memory client factory) sched
                              (CreateTorrent_callers a nss name, w0, []))) ->
    store_answer ev = Some c ->
    slot name (pool_world (run_pool (in_memory client factory) sched
                             (CreateTorrent_callers a nss name, w0, []))) = Some c.
Proof.
  apply (CreateTorrent_callers_ind (in_memory client factory) a nss name
           (fun w tr => forall i ev c, In (i, ev) tr -> store_answer ev = Some c ->
                                       slot name w = Some c)); [done |].
  intros w tr j namespace X e IH Hns Hok i ev c [Hin | [[= <- <-] | []]]%in_app_iff Hans.
  - apply in_memory_slot_stable; [| by eapply IH].
    intros n r. by eapply CreateTorrent_call_ok_not_delete.
  - apply in_memory_answer; [| done].
    destruct (observe e _); simpl in Hok; tauto.
Qed.

(** In every interleaving of [CreateTorrent] callers for one name, every
    MetaInfo given to [NewTorrent] is decoded from the bytes now in the
    slot. *)
Lemma CreateTorrent_callers_converge a nss name w0 sched :
  forall i mi rn,
    In (i, EvNewTorrent mi rn)
       (pool_trace (run_pool (in_memory client factory) sched
                      (CreateTorrent_callers a nss name, w0, []))) ->
    exists committed,
      slot name (pool_world (run_pool (in_memory client factory) sched
                               (CreateTorrent_callers a nss name, w0, []))) = Some committed /\
      DeserializeMetaInfo committed = Ok mi.
Proof.
  cut ((fun w tr =>
          (forall i ev c, In (i, ev) tr -> store_answer ev = Some c -> slot name w = Some c) /\
          (forall i mi rn, In (i, EvNewTorrent mi rn) tr ->
             exists committed, slot name w = Some committed /\
                               DeserializeMetaInfo committed = Ok mi))
         (pool_world (run_pool (in_memory client factory) sched
                        (CreateTorrent_callers a nss name, w0, [])))
         (pool_trace (run_pool (in_memory client factory) sched
                        (CreateTorrent_callers a nss name, w0, [])))).
  { intros [_ Hc]. exact Hc. }
  apply CreateTorrent_callers_ind; [by split |].
  intros w tr j namespace X e [IHa IHc] Hns Hok.
  assert (Hnd : forall n r,
            observe e (in_memory client factory X e w).1 <> EvDeleteFile n r).
  { intros n r. by eapply CreateTorrent_call_ok_not_delete. }
  split.
  - intros i ev c [Hin | [[= <- <-] | []]]%in_app_iff Hans.
    + apply in_memory_slot_stable; [done | by eapply IHa].
    + apply in_memory_answer; [| done].
      destruct (observe e _); simpl in Hok; tauto.
  - intros i mi rn [Hin | [[= <- Hev] | []]]%in_app_iff.
    + destruct (IHc _ _ _ Hin) as (c & Hs & Hd). exists c. split; [| done].
      by apply in_memory_slot_stable.
    + rewrite Hev in Hok. simpl in Hok.
      destruct Hok as (miRaw & Hd & [Hin | [b Hin]]);
        apply thread_trace_In in Hin; exists miRaw; (split; [| done]);
        apply in_memory_slot_stable; try done; by eapply IHa.
Qed.

(** *** The backing file under concurrent callers *)

Lemma CreateTorrent_callers_file_invariant a nss name len w0 sched :
  length_derived_from_name client name len ->
  slot name w0 = None ->
  (forall l, file_length name w0 = Some l -> l = len) ->
  file_invariant client name len
    (pool_world (run_pool (in_memory client factory) sched
                   (CreateTorrent_callers a nss name, w0, [])))
    (pool_trace (run_pool (in_memory client factory) sched
                   (CreateTorrent_callers a nss name, w0, []))).
Proof.
  intros Hclient Hslot0 Hfile0.
  apply CreateTorrent_callers_ind.
  { split; [done |]. split; [by intros ? ? ? [] |].
    split; [intros c Hc; congruence | by intros ? ? ? ? []]. }
  intros w tr j namespace X e (Q1 & Q2 & Q3 & Q4) Hns Hok.
  assert (Hdls : forall i ns n mi,
     In (i, EvDownload ns n (Ok mi))
        (tr ++ [(j, observe e (in_memory client factory X e w).1)]) ->
     exists k, client k ns n = Ok mi).
  { intros i ns n mi [Hin | [Hin | []]]%in_app_iff; [by eapply Q4 |].
    destruct e; simpl in Hin; try discriminate Hin.
    injection Hin as _ <- <- Hr. by eexists. }
  split; [| split; [| split; [| exact Hdls]]]; clear Hdls;
    destruct e as [n md | n md b | n l | n | ns n | d | t | t | mi];
    unfold slot, file_length in *; simpl in *; try done;
    try (destruct (metadata (store w) !! (n, md)) eqn:Hm; simpl in *);
    try (intros i' n' l' [Hin | [[=] | []]]%in_app_iff; by eapply Q2);
    try assumption.
  - (* Q1, EnsureDownloadOrCacheFilePresent *)
    destruct Hok as (mi0 & -> & -> & Hdl). apply thread_trace_In in Hdl.
    destruct (Q4 _ _ _ _ Hdl) as [k Hk]. destruct (Hclient _ _ _ Hk) as [Hn Hl].
    rewrite Hn, Hl.
    destruct (files (store w) !! name) as [l0 |] eqn:Hf; simpl;
      [by rewrite Hf |].
    intros l. rewrite lookup_insert_eq. congruence.
  - (* Q2, EnsureDownloadOrCacheFilePresent *)
    destruct (files (store w) !! n) as [l0 |] eqn:Hf; simpl.
    + intros i' n' l' [Hin | [[= _ <- _] | []]]%in_app_iff; [by eapply Q2 | done].
    + intros i' n' l' [Hin | [[= _ <- _] | []]]%in_app_iff.
      * destruct (decide (n' = n)) as [-> | Hne].
        -- rewrite lookup_insert_eq. by eexists.
        -- rewrite lookup_insert_ne by done. by eapply Q2.
      * rewrite lookup_insert_eq. by eexists.
  - (* Q3, GetOrSetMetadata on an empty slot *)
    destruct Hok as (-> & -> & mi0 & Hs & Hdl & Hens).
    apply thread_trace_In in Hdl, Hens.
    destruct (Q4 _ _ _ _ Hdl) as [k Hk]. destruct (Hclient _ _ _ Hk) as [Hn Hl].
    apply Q2 in Hens as [l0 Hl0]. rewrite Hn in Hl0. pose proof (Q1 _ Hl0) as ->.
    intros c. rewrite lookup_insert_eq. intros [= <-]. split; [done |]. by exists mi0.
  - (* Q3, EnsureDownloadOrCacheFilePresent *)
    destruct Hok as (mi0 & -> & -> & Hdl). apply thread_trace_In in Hdl.
    destruct (Q4 _ _ _ _ Hdl) as [k Hk]. destruct (Hclient _ _ _ Hk) as [Hn Hl].
    rewrite Hn, Hl.
    destruct (files (store w) !! name) as [l0 |] eqn:Hf; simpl;
      [by rewrite Hf |].
    intros c Hc. rewrite lookup_insert_eq. split; [done |]. by apply Q3.
Qed.

End InMemory.

(** ** The bytes [CreateTorrent] decodes *)

Lemma CreateTorrent_outcome_factory a namespace name tr r ns' n' mi0 mi rn :
  CreateTorrent_outcome a namespace name tr r ->
  In (EvDownload ns' n' (Ok mi0)) tr ->
  In (EvNewTorrent mi rn) tr ->
  exists attempted committed,
    Serialize mi0 = Ok attempted /\
    In (EvGetOrSetMetadata name TorrentMeta attempted (Ok committed)) tr /\
    DeserializeMetaInfo committed = Ok mi /\
    r = initialized rn.
Proof.
  intros Hout Hdl Hnew.
  inversion Hout as
    [ miRaw tr' r' Hp | e0 Hne | e0 trf err Hne Hf | e0 trf mi1 err Hne Hf
    | e0 trf mi1 err Hne Hf Hs | e0 trf mi1 miRaw err Hne Hf Hs
    | e0 trf mi1 miRaw committed tr' r' Hne Hf Hs Hp ]; subst;
    try (inversion Hp; subst); split_In Hdl;
    apply downloadMetaInfo_runs in Hf as (Hfe & H2 & _);
    split_In Hnew;
    try (by apply (fetch_event_In _ _ Hfe) in Hnew).
  injection Hnew as -> ->.
  specialize (H2 _ _ _ Hdl). injection H2 as ->.
  exists miRaw, committed. repeat split; try done.
  unfold miss_prefix. solve_In.
Qed.

(** A sequential run is the pool of one thread that takes every step. *)
Lemma run_pool_single {W A : Type} (h : handler W) (p : Prog A) (w : W) tr0 :
  run_pool h (repeat 0%nat (length (trace_of (interp h p w)))) ([p], w, tr0)
  = ([Ret (result_of (interp h p w))], world_of (interp h p w),
     tr0 ++ map (pair 0%nat) (trace_of (interp h p w))).
Proof.
  revert w tr0. induction p as [r | X e k IH]; intros w tr0; simpl.
  - by rewrite app_nil_r.
  - unfold trace_of, result_of, world_of in *. simpl.
    destruct (h X e w) as [x w1] eqn:Hh. simpl.
    specialize (IH x w1 (tr0 ++ [(0%nat, observe e x)])).
    destruct (interp h (k x) w1) as [[r w2] tr]. simpl in *.
    rewrite Hh. simpl. rewrite IH. by rewrite <- app_assoc.
Qed.

(** A caller that has returned has made a complete run of [CreateTorrent]. *)
Lemma CreateTorrent_callers_completed {W : Type} (h : handler W) a nss name w0 sched i r :
  pool_threads (run_pool h sched (CreateTorrent_callers a nss name, w0, [])) !! i
    = Some (Ret r) ->
  exists namespace,
    nss !! i = Some namespace /\
    CreateTorrent_outcome a namespace name
      (thread_trace i (pool_trace (run_pool h sched (CreateTorrent_callers a nss name, w0, []))))
      r.
Proof.
  intros Hi.
  pose proof (run_pool_length h sched (CreateTorrent_callers a nss name, w0, [])) as Hlen.
  assert (Hlt : (i < length nss)%nat).
  { apply lookup_lt_Some in Hi. unfold pool_threads, CreateTorrent_callers in *.
    simpl in Hlen. rewrite length_map in Hlen. lia. }
  destruct (lookup_lt_is_Some_2 nss i Hlt) as [namespace Hns].
  exists namespace. split; [done |].
  destruct (run_pool_runs h sched (CreateTorrent_callers a nss name) w0 i
              (CreateTorrent a namespace name)) as (p & Hp & Hr).
  { unfold CreateTorrent_callers. by rewrite list_lookup_fmap, Hns. }
  unfold pool_threads, pool_trace in *. rewrite Hp in Hi. injection Hi as ->.
  by apply CreateTorrent_runs.
Qed.

Lemma CreateTorrent_outcome_success a namespace name tr t :
  CreateTorrent_outcome a namespace name tr (Ok t) ->
  exists mi, In (EvNewTorrent mi (Ok t)) tr.
Proof.
  intros Hout.
  inversion Hout as
    [ miRaw tr' r' Hp | | | | |
    | e0 trf mi1 miRaw committed tr' r' Hne Hf Hs Hp ]; subst;
    inversion Hp as [| mi rn Hd Htr Hrn]; subst;
    destruct rn as [t' |]; simplify_eq/=; exists mi; unfold miss_prefix; solve_In.
Qed.

Lemma CreateTorrent_outcome_ensures a namespace name tr r ns' n' mi :
  CreateTorrent_outcome a namespace name tr r ->
  In (EvDownload ns' n' (Ok mi)) tr ->
  exists re, In (EvEnsureFilePresent (Name mi) (Length mi) re) tr.
Proof.
  intros Hout Hdl.
  inversion Hout as
    [ miRaw tr' r' Hp | e0 Hne | e0 trf err Hne Hf | e0 trf mi1 err Hne Hf
    | e0 trf mi1 err Hne Hf Hs | e0 trf mi1 miRaw err Hne Hf Hs
    | e0 trf mi1 miRaw committed tr' r' Hne Hf Hs Hp ]; subst;
    try (inversion Hp; subst); split_In Hdl;
    apply downloadMetaInfo_runs in Hf as (_ & H2 & _);
    specialize (H2 _ _ _ Hdl); simplify_eq/=;
    eexists; unfold miss_prefix; solve_In.
Qed.

(** ** Creation under a race, deletion, and the backing file *)

(** C8: [DeleteTorrent] succeeds when the store deletes the file and when
    it reports that there is none, and returns any other error of the
    store as it is; over the in-memory store it succeeds on an absent file,
    and twice in a row from any state. *)
Theorem DeleteTorrent_idempotent :
  (forall (W : Type) (h : handler W) a name w,
     ((h _ (DeleteDownloadOrCacheFile name) w).1 = None ->
      result_of (interp h (DeleteTorrent a name) w) = None) /\
     (forall e, (h _ (DeleteDownloadOrCacheFile name) w).1 = Some e ->
                os_IsNotExist (Some e) = true ->
                result_of (interp h (DeleteTorrent a name) w) = None) /\
     (forall e, (h _ (DeleteDownloadOrCacheFile name) w).1 = Some e ->
                os_IsNotExist (Some e) = false ->
                result_of (interp h (DeleteTorrent a name) w) = Some e)) /\
  (forall client factory a name w,
     let first := interp (in_memory client factory) (DeleteTorrent a name) w in
     let second := interp (in_memory client factory) (DeleteTorrent a name) (world_of first) in
     (file_length name w = None -> result_of first = None /\ world_of first = w) /\
     result_of first = None /\
     file_length name (world_of first) = None /\
     result_of second = None).
Proof.
  split.
  - intros W h a name w.
    destruct (DeleteTorrent_outcome h a name w) as (-> & _ & _). cbv zeta.
    repeat split.
    + by intros ->.
    + by intros e -> ->.
    + by intros e -> ->.
  - intros client factory a name w. cbv zeta.
    destruct (DeleteTorrent_outcome (in_memory client factory) a name w)
      as (-> & -> & _).
    destruct (DeleteTorrent_outcome (in_memory client factory) a name
                (in_memory client factory _ (DeleteDownloadOrCacheFile name) w).2)
      as (-> & _ & _).
    cbv zeta. rewrite !in_memory_delete. unfold file_length.
    destruct (files (store w) !! name) eqn:Hf; cbn [fst snd store files os_IsNotExist].
    + rewrite lookup_delete_eq. by cbn [fst snd os_IsNotExist os_ErrNotExist].
    + rewrite Hf. by cbn [fst snd os_IsNotExist os_ErrNotExist].
Qed.

(** C9: in a run of [CreateTorrent], a file is ensured present for every
    MetaInfo that was fetched, under its name and with its declared length,
    and the commit comes after that call has succeeded and offers the
    encoding of that MetaInfo; hence, over the in-memory store, with a
    length derived from the name and an encoding that keeps it, once a
    caller has returned a torrent the file of the name has the declared
    length of the MetaInfo in the slot, in any interleaving of callers and
    in a run of one caller alone. *)
Theorem CreateTorrent_file_length :
  (forall (W : Type) (h : handler W) a namespace name w,
     (forall ns' n' mi,
        In (EvDownload ns' n' (Ok mi)) (trace_of (interp h (CreateTorrent a namespace name) w)) ->
        exists re,
          In (EvEnsureFilePresent (Name mi) (Length mi) re)
             (trace_of (interp h (CreateTorrent a namespace name) w))) /\
     (forall l1 n len re l2,
        trace_of (interp h (CreateTorrent a namespace name) w)
          = l1 ++ EvEnsureFilePresent n len re :: l2 ->
        exists mi, n = Name mi /\ len = Length mi /\
                   In (EvDownload namespace name (Ok mi)) l1) /\
     (forall l1 n md b rg l2,
        trace_of (interp h (CreateTorrent a namespace name) w)
          = l1 ++ EvGetOrSetMetadata n md b rg :: l2 ->
        n = name /\ md = TorrentMeta /\
        exists mi, Serialize mi = Ok b /\
                   In (EvDownload namespace name (Ok mi)) l1 /\
                   In (EvEnsureFilePresent (Name mi) (Length mi) None) l1)) /\
  (forall client factory a nss name len w0 sched,
     round_trip_keeps_length ->
     length_derived_from_name client name len ->
     slot name w0 = None ->
     (forall l, file_length name w0 = Some l -> l = len) ->
     let st := run_pool (in_memory client factory) sched
                 (CreateTorrent_callers a nss name, w0, []) in
     forall i t,
       pool_threads st !! i = Some (Ret (Ok t)) ->
       exists committed mi,
         slot name (pool_world st) = Some committed /\
         DeserializeMetaInfo committed = Ok mi /\
         file_length name (pool_world st) = Some (Length mi)) /\
  (forall client factory a namespace name len w0 t,
     round_trip_keeps_length ->
     length_derived_from_name client name len ->
     slot name w0 = None ->
     (forall l, file_length name w0 = Some l -> l = len) ->
     let run := interp (in_memory client factory) (CreateTorrent a namespace name) w0 in
     result_of run = Ok t ->
     exists committed mi,
       slot name (world_of run) = Some committed /\
       DeserializeMetaInfo committed = Ok mi /\
       file_length name (world_of run) = Some (Length mi)).
Proof.
  assert (Hpool : forall client factory a nss name len w0 sched,
     round_trip_keeps_length ->
     length_derived_from_name client name len ->
     slot name w0 = None ->
     (forall l, file_length name w0 = Some l -> l = len) ->
     let st := run_pool (in_memory client factory) sched
                 (CreateTorrent_callers a nss name, w0, []) in
     forall i t,
       pool_threads st !! i = Some (Ret (Ok t)) ->
       exists committed mi,
         slot name (pool_world st) = Some committed /\
         DeserializeMetaInfo committed = Ok mi /\
         file_length name (pool_world st) = Some (Length mi)).
  { intros client factory a nss name len w0 sched Hrt Hclient Hslot Hfile st i t Hi.
    apply CreateTorrent_callers_completed in Hi as (namespace & Hns & Hout).
    apply CreateTorrent_outcome_success in Hout as [mi Hnew].
    apply thread_trace_In in Hnew.
    destruct (CreateTorrent_callers_converge client factory a nss name w0 sched _ _ _ Hnew)
      as (committed & Hs & Hd).
    destruct (CreateTorrent_callers_file_invariant client factory a nss name len w0 sched
                Hclient Hslot Hfile) as (_ & _ & Q3 & _).
    destruct (Q3 _ Hs) as (Hf & mi0 & Hser & Hlen).
    exists committed, mi. repeat split; try done.
    fold st in Hf. rewrite Hf. f_equal. rewrite <- Hlen. symmetry. by eapply Hrt. }
  split; [| split; [exact Hpool |]].
  - intros W h a namespace name w.
    pose proof (interp_runs h (CreateTorrent a namespace name) w) as Hr.
    split; [| split].
    + intros ns' n' mi Hdl. eapply CreateTorrent_outcome_ensures; [| exact Hdl].
      by apply CreateTorrent_runs.
    + intros l1 n len re l2 Heq. rewrite Heq in Hr.
      apply CreateTorrent_follows, follows_split in Hr. exact Hr.
    + intros l1 n md b rg l2 Heq. rewrite Heq in Hr.
      apply CreateTorrent_follows, follows_split in Hr. exact Hr.
  - intros client factory a namespace name len w0 t Hrt Hclient Hslot Hfile run Hres.
    subst run. set (p := CreateTorrent a namespace name) in *.
    pose proof (Hpool client factory a [namespace] name len w0
                  (repeat 0%nat (length (trace_of (interp (in_memory client factory) p w0))))
                  Hrt Hclient Hslot Hfile 0%nat t) as HP.
    cbv zeta in HP. change (CreateTorrent_callers a [namespace] name) with [p] in HP.
    rewrite run_pool_single in HP. apply HP.
    unfold pool_threads. cbn [fst]. by rewrite Hres.
Qed.

End Proofs.

(** * More on the archive *)

Section More.

Context {ext : Externals}.

(** ** The attempts of [downloadMetaInfo] *)

Lemma last_cons_cons {A : Type} (x y : A) l : last (x :: y :: l) = last (y :: l).
Proof. reflexivity. Qed.

(** The complete runs of the retry loop: the answers of the attempts, of
    which only the last can be decisive, and the result they give. *)
Lemma downloadMetaInfo_loop_attempts (a : TorrentArchive) (namespace name : string) n :
  forall i err tr r,
  0 <= i ->
  runs (downloadMetaInfo_loop a namespace name n i err) tr (Ret r) ->
  exists answers,
    tr = attempts_trace namespace name (UnavailableMetaInfoRetrySleep (config a))
           (negb (0 <? i)%Z) answers /\
    (length answers <= n)%nat /\
    forallb (fun ans => negb (decisive ans)) (removelast answers) = true /\
    (from_option decisive false (last answers) = false -> length answers = n) /\
    r = match last answers with
        | None => Err (Errorf "download metainfo: " err)
        | Some ans => fetch_result ans
        end.
Proof.
  induction n as [| n IH]; intros i err tr r Hi Hr.
  - simpl in Hr. apply runs_Ret_inv in Hr as [-> [= ->]]. exists []. by repeat split.
  - assert (Hi' : (0 <? i + 1)%Z = true) by (apply Z.ltb_lt; lia).
    assert (Hbody : forall tr,
      runs (r <- call (Download namespace name) ;;
            match r with
            | inr e =>
                if decide (e = metainfoclient_ErrNotFound)
                then Ret (Err storage_ErrNotFound)
                else downloadMetaInfo_loop a namespace name n (i + 1) (Some e)
            | inl mi => Ret (Ok mi)
            end) tr (Ret r) ->
      exists ans answers,
        tr = EvDownload namespace name ans
             :: attempts_trace namespace name (UnavailableMetaInfoRetrySleep (config a))
                  false answers /\
        (length (ans :: answers) <= S n)%nat /\
        forallb (fun ans => negb (decisive ans)) (removelast (ans :: answers)) = true /\
        (from_option decisive false (last (ans :: answers)) = false ->
         length (ans :: answers) = S n) /\
        r = match last (ans :: answers) with
            | None => Err (Errorf "download metainfo: " err)
            | Some ans => fetch_result ans
            end).
    { clear tr Hr. intros tr Hr. simpl in Hr. runs_step Hr ans; [done |].
      destruct ans as [mi | e].
      { apply runs_Ret_inv in Hr as [-> [= ->]]. exists (Ok mi), [].
        repeat split; simpl; try done. lia. }
      destruct (decide (e = metainfoclient_ErrNotFound)) as [-> | Hne].
      { apply runs_Ret_inv in Hr as [-> [= ->]].
        exists (Err metainfoclient_ErrNotFound), [].
        repeat split; simpl; try done. lia. }
      destruct (IH (i + 1) (Some e) tr r ltac:(lia) Hr)
        as (answers & -> & Hlen & Hnd & Hfull & ->).
      rewrite Hi'. simpl. exists (Err e), answers.
      destruct answers as [| ans answers].
      - simpl in *. specialize (Hfull eq_refl). subst n.
        repeat split;
          first [ done
                | by rewrite bool_decide_eq_false_2
                | by destruct (decide (e = metainfoclient_ErrNotFound)) ].
      - split; [done |]. split; [simpl length in *; lia |]. split; [| split].
        + change (removelast (Err e :: ans :: answers))
            with (Err e :: removelast (ans :: answers)).
          cbn [forallb decisive]. rewrite Hnd.
          by rewrite bool_decide_eq_false_2.
        + rewrite last_cons_cons. intros Hl. simpl length in *. f_equal. by apply Hfull.
        + rewrite last_cons_cons.
          destruct (last (ans :: answers)) eqn:Hl; [done |].
          by apply last_None in Hl. }
    simpl in Hr. destruct (0 <? i)%Z; simpl in Hr.
    + runs_step Hr u; [done |].
      destruct (Hbody _ Hr) as (ans & answers & -> & H1 & H2 & H3 & H4).
      by exists (ans :: answers).
    + destruct (Hbody _ Hr) as (ans & answers & -> & H1 & H2 & H3 & H4).
      by exists (ans :: answers).
Qed.

Lemma attempts_trace_count_downloads namespace name d first answers :
  count_downloads (attempts_trace namespace name d first answers) = length answers.
Proof.
  unfold count_downloads. revert first.
  induction answers as [| ans answers IH]; intros first; [reflexivity |].
  destruct first; simpl; by rewrite IH.
Qed.

Lemma attempts_trace_count_sleeps namespace name d first answers :
  count_sleeps (attempts_trace namespace name d first answers)
  = (length answers - (if first then 1 else 0))%nat.
Proof.
  unfold count_sleeps. revert first.
  induction answers as [| ans answers IH]; intros first; [by destruct first |].
  destruct first; simpl; rewrite IH; simpl; lia.
Qed.

Lemma attempts_trace_events namespace name d first answers :
  forallb (is_attempt_event namespace name d)
    (attempts_trace namespace name d first answers) = true.
Proof.
  revert first. induction answers as [| ans answers IH]; intros first; [reflexivity |].
  destruct first; simpl; rewrite IH, !bool_decide_eq_true_2; done.
Qed.


Lemma attempts_trace_last namespace name d first answers :
  last (attempts_trace namespace name d first answers)
  = EvDownload namespace name <$> last answers.
Proof.
  revert first. induction answers as [| x l IH]; intros first; [done |].
  destruct l as [| y l].
  - by destruct first.
  - rewrite last_cons_cons, <- (IH false).
    destruct first; simpl; by rewrite ?last_cons_cons.
Qed.

Lemma attempts_trace_alternates namespace name d first answers :
  alternates first (attempts_trace namespace name d first answers) = true.
Proof.
  revert first. induction answers as [| ans answers IH]; intros first; [done |].
  destruct first; simpl; apply (IH false).
Qed.

Lemma alternates_adjacent namespace name d l1 :
  forall want_download ev1 ev2 l2,
  alternates want_download (l1 ++ ev1 :: ev2 :: l2) = true ->
  forallb (is_attempt_event namespace name d) (l1 ++ ev1 :: ev2 :: l2) = true ->
  (is_download ev1 = true /\ ev2 = EvSleep d) \/
  (ev1 = EvSleep d /\ is_download ev2 = true).
Proof.
  induction l1 as [| x l1 IH]; intros want_download ev1 ev2 l2 Halt Hev.
  - simpl in Halt, Hev.
    apply andb_prop in Halt as [H1 [H2 _]%andb_prop].
    apply andb_prop in Hev as [E1 [E2 _]%andb_prop].
    destruct want_download; simpl in H2.
    + left. split; [done |].
      destruct ev2; try discriminate. simpl in E2.
      apply bool_decide_eq_true in E2. by subst.
    + right. split; [| done].
      destruct ev1; try discriminate. simpl in E1.
      apply bool_decide_eq_true in E1. by subst.
  - simpl in Halt, Hev.
    apply andb_prop in Halt as [_ Halt]. apply andb_prop in Hev as [_ Hev].
    by eapply IH.
Qed.

Lemma attempts_trace_adjacent namespace name d first answers l1 ev1 ev2 l2 :
  attempts_trace namespace name d first answers = l1 ++ ev1 :: ev2 :: l2 ->
  (is_download ev1 = true /\ ev2 = EvSleep d) \/
  (ev1 = EvSleep d /\ is_download ev2 = true).
Proof.
  intros Heq.
  pose proof (attempts_trace_alternates namespace name d first answers) as Halt.
  pose proof (attempts_trace_events namespace name d first answers) as Hev.
  rewrite Heq in Halt, Hev. by eapply alternates_adjacent.
Qed.

Section Fetching.

Context {W : Type} (h : handler W) (a : TorrentArchive) (namespace name : string).

(** X1: in any environment [downloadMetaInfo] makes its attempts one after
    the other until an answer is decisive or the retry count is used up:
    every answer but the last is a failure other than not-found, and the
    result is read off the last answer (the MetaInfo, [storage.ErrNotFound]
    for not-found, the wrapped error after the last allowed attempt). *)
Theorem downloadMetaInfo_attempts (w : W) :
  exists answers,
    trace_of (interp h (downloadMetaInfo a namespace name) w)
      = attempts_trace namespace name (UnavailableMetaInfoRetrySleep (config a))
          true answers /\
    (length answers <= Z.to_nat (UnavailableMetaInfoRetries (config a)))%nat /\
    forallb (fun ans => negb (decisive ans)) (removelast answers) = true /\
    (from_option decisive false (last answers) = false ->
     length answers = Z.to_nat (UnavailableMetaInfoRetries (config a))) /\
    result_of (interp h (downloadMetaInfo a namespace name) w)
      = match last answers with
        | None => Err (Errorf "download metainfo: " None)
        | Some ans => fetch_result ans
        end.
Proof.
  pose proof (interp_runs h (downloadMetaInfo a namespace name) w) as Hr.
  unfold downloadMetaInfo in Hr at 1.
  by apply downloadMetaInfo_loop_attempts in Hr.
Qed.

(** X2: in any environment [downloadMetaInfo] makes at most as many
    attempts as the retry count; its calls take turns, an attempt first,
    then a sleep, then an attempt, and so on, so there is exactly one sleep
    between two consecutive attempts and none before the first or after
    the last; every sleep is for the configured delay, and no other call
    is made than [Download] for its namespace and name. *)
Theorem downloadMetaInfo_bounds (w : W) :
  (count_downloads (trace_of (interp h (downloadMetaInfo a namespace name) w))
   <= Z.to_nat (UnavailableMetaInfoRetries (config a)))%nat /\
  count_sleeps (trace_of (interp h (downloadMetaInfo a namespace name) w))
  = (count_downloads (trace_of (interp h (downloadMetaInfo a namespace name) w)) - 1)%nat /\
  forallb (is_attempt_event namespace name (UnavailableMetaInfoRetrySleep (config a)))
          (trace_of (interp h (downloadMetaInfo a namespace name) w)) = true /\
  (forall tr', trace_of (interp h (downloadMetaInfo a namespace name) w)
               <> EvSleep (UnavailableMetaInfoRetrySleep (config a)) :: tr') /\
  (forall tr', trace_of (interp h (downloadMetaInfo a namespace name) w)
               <> tr' ++ [EvSleep (UnavailableMetaInfoRetrySleep (config a))]) /\
  alternates true (trace_of (interp h (downloadMetaInfo a namespace name) w)) = true /\
  (forall l1 ev1 ev2 l2,
     trace_of (interp h (downloadMetaInfo a namespace name) w) = l1 ++ ev1 :: ev2 :: l2 ->
     (is_download ev1 = true /\ ev2 = EvSleep (UnavailableMetaInfoRetrySleep (config a))) \/
     (ev1 = EvSleep (UnavailableMetaInfoRetrySleep (config a)) /\ is_download ev2 = true)).
Proof.
  pose proof (interp_runs h (downloadMetaInfo a namespace name) w) as Hr.
  unfold downloadMetaInfo in Hr at 1.
  apply downloadMetaInfo_loop_attempts in Hr as (answers & -> & Hlen & _); [| lia].
  rewrite attempts_trace_count_downloads, attempts_trace_count_sleeps.
  split; [done |]. split; [done |]. split; [apply attempts_trace_events |].
  split; [| split; [| split]].
  - intros tr'. by destruct answers.
  - intros tr' Heq. simpl in Heq.
    pose proof (attempts_trace_last namespace name
                  (UnavailableMetaInfoRetrySleep (config a)) true answers) as Hl.
    rewrite Heq, last_snoc in Hl.
    by destruct (last answers).
  - apply attempts_trace_alternates.
  - simpl negb. intros l1 ev1 ev2 l2 Heq.
    by apply (attempts_trace_adjacent _ _ _ _ _ _ _ _ _ Heq).
Qed.

End Fetching.

(** ** The calls of [CreateTorrent] and [GetTorrent] *)








Section Calls.

Context {W : Type} (h : handler W) (a : TorrentArchive) (namespace name : string).


(** X4: in any environment [GetTorrent] reads the MetaInfo slot and calls
    [NewTorrent] at most once, on a MetaInfo decoded from the bytes read,
    and makes no other call: no fetch, no sleep, no write, whatever the
    store holds.  A failed read gives [get metainfo: ...], bytes that do
    not decode give [parse metainfo: ...] without any call to [NewTorrent],
    and otherwise the result is that of [NewTorrent]. *)
Theorem GetTorrent_calls (w : W) :
  exists r0,
    (h _ (GetMetadata name TorrentMeta) w).1 = r0 /\
    match r0 with
    | inr e0 =>
        trace_of (interp h (GetTorrent a namespace name) w)
          = [EvGetMetadata name TorrentMeta (Err e0)] /\
        result_of (interp h (GetTorrent a namespace name) w)
          = Err (Errorf "get metainfo: " (Some e0))
    | inl miRaw =>
        match DeserializeMetaInfo miRaw with
        | inr e =>
            trace_of (interp h (GetTorrent a namespace name) w)
              = [EvGetMetadata name TorrentMeta (Ok miRaw)] /\
            result_of (interp h (GetTorrent a namespace name) w)
              = Err (Errorf "parse metainfo: " (Some e))
        | inl mi =>
            exists rn,
              trace_of (interp h (GetTorrent a namespace name) w)
                = [EvGetMetadata name TorrentMeta (Ok miRaw); EvNewTorrent mi rn] /\
              result_of (interp h (GetTorrent a namespace name) w) = initialized rn
        end
    end.
Proof.
  unfold GetTorrent, trace_of, result_of. simpl.
  destruct (h _ (GetMetadata name TorrentMeta) w) as [[miRaw | e0] w1]; simpl;
    eexists; (split; [reflexivity |]); simpl; [| done].
  destruct (DeserializeMetaInfo miRaw) as [mi | e]; simpl; [| done].
  destruct (h _ (NewTorrent mi) w1) as [[t | e] w2]; simpl; by eexists.
Qed.

End Calls.

(** ** Creation over the in-memory store *)

(** A run that makes no call leaves the environment alone, and the
    environment a run leaves behind is the one its last call left. *)
Lemma interp_no_call {W A : Type} (h : handler W) (p : Prog A) (w : W) :
  trace_of (interp h p w) = [] -> world_of (interp h p w) = w.
Proof.
  destruct p as [r | X e k]; [done |]. unfold trace_of, world_of. simpl.
  destruct (h X e w) as [x w1]. by destruct (interp h (k x) w1) as [[r w2] tr].
Qed.

Lemma interp_last {W A : Type} (h : handler W) (p : Prog A) (w : W) l ev :
  trace_of (interp h p w) = l ++ [ev] ->
  exists (X : Type) (e : Eff X) (w1 : W),
    ev = observe e (h X e w1).1 /\ world_of (interp h p w) = (h X e w1).2.
Proof.
  revert w l. induction p as [r | X e k IH]; intros w l Htr.
  - by destruct l.
  - unfold trace_of, world_of in *. simpl in *.
    destruct (h X e w) as [x w1] eqn:Hh.
    specialize (IH x w1). pose proof (interp_no_call h (k x) w1) as Hnone.
    unfold trace_of, world_of in *.
    destruct (interp h (k x) w1) as [[r w2] tr]. simpl in *.
    destruct l as [| ev' l]; simpl in Htr.
    + injection Htr as <- ->. exists X, e, w. rewrite Hh. simpl.
      split; [done |]. by apply Hnone.
    + injection Htr as _ ->. by eapply IH.
Qed.

Lemma CreateTorrent_outcome_last a namespace name tr t :
  CreateTorrent_outcome a namespace name tr (Ok t) ->
  exists mi l, tr = l ++ [EvNewTorrent mi (Ok t)].
Proof.
  intros Hout.
  inversion Hout as
    [ miRaw tr' r' Hp | | | | |
    | e0 trf mi1 miRaw committed tr' r' Hne Hf Hs Hp ]; subst;
    inversion Hp as [| mi rn Hd Htr Hrn]; subst;
    destruct rn as [t' |]; simplify_eq/=; exists mi.
  - by exists [EvGetMetadata name TorrentMeta (Ok miRaw)].
  - exists (miss_prefix name e0 trf
            ++ [EvTimerStop "metainfo_download";
                EvEnsureFilePresent (Name mi1) (Length mi1) None;
                EvGetOrSetMetadata name TorrentMeta miRaw (Ok committed)]).
    unfold miss_prefix. by rewrite <- app_assoc.
Qed.

Section InMemoryRuns.

Variable client : nat -> string -> string -> MetaInfo + error.
Variable factory : Store -> MetaInfo -> Torrent + error.

(** The read step of the in-memory store. *)
Lemma in_memory_read name md (w : World) :
  in_memory client factory _ (GetMetadata name md) w
  = (match metadata (store w) !! (name, md) with
     | Some b => Ok b
     | None => Err os_ErrNotExist
     end, w).
Proof. simpl. by destruct (metadata (store w) !! (name, md)). Qed.

(** What a successful [CreateTorrent] leaves in the store: the slot holds
    bytes that decode to the MetaInfo the torrent was built from, in the
    store as it is now. *)
Lemma CreateTorrent_success_state a namespace name w t :
  result_of (interp (in_memory client factory) (CreateTorrent a namespace name) w) = Ok t ->
  exists committed mi,
    slot name (world_of (interp (in_memory client factory)
                           (CreateTorrent a namespace name) w)) = Some committed /\
    DeserializeMetaInfo committed = Ok mi /\
    factory (store (world_of (interp (in_memory client factory)
                                (CreateTorrent a namespace name) w))) mi = Ok t /\
    In (EvNewTorrent mi (Ok t))
       (trace_of (interp (in_memory client factory) (CreateTorrent a namespace name) w)).
Proof.
  intros Hres. set (p := CreateTorrent a namespace name) in *.
  pose proof (CreateTorrent_runs _ _ _ _ _ (interp_runs (in_memory client factory) p w))
    as Hout.
  rewrite Hres in Hout. apply CreateTorrent_outcome_last in Hout as (mi & l & Htr).
  destruct (interp_last _ _ _ _ _ Htr) as (X & e & w1 & Hev & Hw).
  assert (Hin : In (EvNewTorrent mi (Ok t))
                   (trace_of (interp (in_memory client factory) p w))).
  { rewrite Htr. apply in_app_iff. right. by left. }
  pose proof (CreateTorrent_callers_converge client factory a [namespace] name w
                (repeat 0%nat (length (trace_of (interp (in_memory client factory) p w))))
                0%nat mi (Ok t)) as Hc.
  change (CreateTorrent_callers a [namespace] name) with [p] in Hc.
  rewrite run_pool_single in Hc. unfold pool_trace, pool_world in Hc. cbn [fst snd] in Hc.
  destruct Hc as (committed & Hs & Hd).
  { rewrite app_nil_l. apply in_map_iff. by exists (EvNewTorrent mi (Ok t)). }
  exists committed, mi. repeat split; try done.
  rewrite Hw. destruct e; simpl in Hev; try discriminate Hev.
  injection Hev as <- Ht. simpl. done.
Qed.

(** X5: over the in-memory store, after [CreateTorrent] has returned a
    torrent, [GetTorrent] for the same name, from any namespace and
    archive, returns the same torrent, built from the same MetaInfo, and
    leaves the store as it is; and a second [CreateTorrent] is that same
    run: it makes no fetch and no write. *)
Theorem CreateTorrent_then_GetTorrent a namespace name w t a' namespace' :
  result_of (interp (in_memory client factory) (CreateTorrent a namespace name) w) = Ok t ->
  exists committed mi,
    In (EvNewTorrent mi (Ok t))
       (trace_of (interp (in_memory client factory) (CreateTorrent a namespace name) w)) /\
    interp (in_memory client factory) (GetTorrent a' namespace' name)
      (world_of (interp (in_memory client factory) (CreateTorrent a namespace name) w))
    = (Ok t,
       world_of (interp (in_memory client factory) (CreateTorrent a namespace name) w),
       [EvGetMetadata name TorrentMeta (Ok committed); EvNewTorrent mi (Ok t)]) /\
    interp (in_memory client factory) (CreateTorrent a' namespace' name)
      (world_of (interp (in_memory client factory) (CreateTorrent a namespace name) w))
    = interp (in_memory client factory) (GetTorrent a' namespace' name)
        (world_of (interp (in_memory client factory) (CreateTorrent a namespace name) w)).
Proof.
  intros Hres.
  destruct (CreateTorrent_success_state _ _ _ _ _ Hres) as (committed & mi & Hs & Hd & Hf & Hin).
  set (w' := world_of _) in *. exists committed, mi. split; [done |].
  unfold slot in Hs.
  assert (Hget : interp (in_memory client factory) (GetTorrent a' namespace' name) w'
                 = (Ok t, w', [EvGetMetadata name TorrentMeta (Ok committed);
                               EvNewTorrent mi (Ok t)])).
  { unfold GetTorrent. cbn [interp bind call]. rewrite in_memory_read, Hs, Hd.
    cbn [interp bind call in_memory observe]. by rewrite Hf. }
  split; [done |]. rewrite Hget.
  unfold CreateTorrent. cbn [interp bind call]. rewrite in_memory_read, Hs.
  cbn [err_of os_IsNotExist]. rewrite Hd.
  cbn [interp bind call in_memory observe]. by rewrite Hf.
Qed.

(** X6: over the in-memory store, after [CreateTorrent] has returned a
    torrent, [Stat] for the same name reports the MetaInfo that torrent was
    built from, together with the bitfield of the piece-status bytes the
    store holds for the name. *)
Theorem CreateTorrent_then_Stat a namespace name w t a' namespace' raw :
  result_of (interp (in_memory client factory) (CreateTorrent a namespace name) w) = Ok t ->
  metadata (store (world_of (interp (in_memory client factory)
                               (CreateTorrent a namespace name) w)))
    !! (name, PieceStatus) = Some raw ->
  exists mi,
    In (EvNewTorrent mi (Ok t))
       (trace_of (interp (in_memory client factory) (CreateTorrent a namespace name) w)) /\
    result_of (interp (in_memory client factory) (Stat a' namespace' name)
                 (world_of (interp (in_memory client factory)
                              (CreateTorrent a namespace name) w)))
    = Ok (NewTorrentInfo mi (newBitfieldFromPieceStatusBytes name raw)).
Proof.
  intros Hres Hps.
  destruct (CreateTorrent_success_state _ _ _ _ _ Hres) as (committed & mi & Hs & Hd & Hf & Hin).
  exists mi. split; [done |].
  set (w' := world_of _) in *. unfold slot in Hs.
  unfold Stat, result_of. cbn [interp bind call]. rewrite in_memory_read, Hs, Hd.
  cbn [interp bind call]. by rewrite in_memory_read, Hps.
Qed.

(** *** The first commit wins *)

Lemma first_commit_app tr1 tr2 :
  first_commit (tr1 ++ tr2)
  = match first_commit tr1 with Some b => Some b | None => first_commit tr2 end.
Proof. induction tr1 as [| ev tr1 IH]; [done |]. by destruct ev. Qed.

Lemma run_pool_trace_grows {W A : Type} (h : handler W) sched sched' (st : pool_state W A) :
  exists l, pool_trace (run_pool h (sched ++ sched') st)
            = pool_trace (run_pool h sched st) ++ l.
Proof.
  induction sched' as [| j sched' IH] using rev_ind.
  - exists []. by rewrite !app_nil_r.
  - destruct IH as [l IH]. rewrite app_assoc, run_pool_snoc.
    destruct (run_pool h (sched ++ sched') st) as [[pool w] tr].
    unfold pool_trace in *. simpl in *.
    destruct (pool !! j) as [[r | X e k] |]; simpl; eauto.
    destruct (h X e w) as [x w1]. simpl. rewrite IH. eexists. by rewrite <- app_assoc.
Qed.

(** While callers of [CreateTorrent] for [name] run, a slot that was empty
    at the start holds the bytes offered by the first commit made so far. *)
Lemma CreateTorrent_callers_first_commit a nss name w0 sched :
  slot name w0 = None ->
  slot name (pool_world (run_pool (in_memory client factory) sched
                           (CreateTorrent_callers a nss name, w0, [])))
  = first_commit (map snd (pool_trace (run_pool (in_memory client factory) sched
                                         (CreateTorrent_callers a nss name, w0, [])))).
Proof.
  intros H0.
  apply (CreateTorrent_callers_ind (in_memory client factory) a nss name
           (fun w tr => slot name w = first_commit (map snd tr))); [done |].
  intros w tr j namespace X e IH Hns Hok.
  rewrite map_app, first_commit_app, <- IH. unfold slot in *. clear IH.
  destruct e as [n md | n md b | n l | n | ns n | d | t | t | mi]; simpl in *;
    try done.
  - destruct (metadata (store w) !! (n, md)); simpl;
      by destruct (metadata (store w) !! (name, TorrentMeta)).
  - destruct Hok as (-> & -> & _).
    destruct (metadata (store w) !! (name, TorrentMeta)) eqn:Hm; simpl.
    + by rewrite Hm.
    + by rewrite lookup_insert_eq.
  - destruct (files (store w) !! n); simpl;
      by destruct (metadata (store w) !! (name, TorrentMeta)).
  - by destruct (metadata (store w) !! (name, TorrentMeta)).
  - by destruct (metadata (store w) !! (name, TorrentMeta)).
  - by destruct (metadata (store w) !! (name, TorrentMeta)).
  - by destruct (metadata (store w) !! (name, TorrentMeta)).
  - by destruct (metadata (store w) !! (name, TorrentMeta)).
Qed.

(** X7: in every interleaving of [CreateTorrent] callers for a name whose
    slot was empty, the slot holds the bytes offered by the first commit of
    the trace, and every commit, by whichever caller, was answered these
    bytes: the first writer wins. *)
Theorem CreateTorrent_first_writer_wins a nss name w0 sched :
  slot name w0 = None ->
  slot name (pool_world (run_pool (in_memory client factory) sched
                           (CreateTorrent_callers a nss name, w0, [])))
  = first_commit (map snd (pool_trace (run_pool (in_memory client factory) sched
                                         (CreateTorrent_callers a nss name, w0, [])))) /\
  (forall i attempted committed,
     In (i, EvGetOrSetMetadata name TorrentMeta attempted (Ok committed))
        (pool_trace (run_pool (in_memory client factory) sched
                       (CreateTorrent_callers a nss name, w0, []))) ->
     first_commit (map snd (pool_trace (run_pool (in_memory client factory) sched
                                          (CreateTorrent_callers a nss name, w0, []))))
     = Some committed).
Proof.
  intros H0. split; [by apply CreateTorrent_callers_first_commit |].
  intros i attempted committed Hin.
  rewrite <- CreateTorrent_callers_first_commit by done.
  by eapply CreateTorrent_callers_answers.
Qed.

(** X8: in every interleaving of [CreateTorrent] callers for a name, a
    MetaInfo slot that holds bytes holds the same bytes after any further
    steps of the callers: what was committed is never overwritten. *)
Theorem CreateTorrent_slot_immutable a nss name w0 sched sched' committed :
  slot name (pool_world (run_pool (in_memory client factory) sched
                           (CreateTorrent_callers a nss name, w0, []))) = Some committed ->
  slot name (pool_world (run_pool (in_memory client factory) (sched ++ sched')
                           (CreateTorrent_callers a nss name, w0, []))) = Some committed.
Proof.
  intros Hs. destruct (slot name w0) as [c0 |] eqn:H0.
  - assert (Hkeep : forall s,
              slot name (pool_world (run_pool (in_memory client factory) s
                                       (CreateTorrent_callers a nss name, w0, [])))
              = Some c0).
    { apply (CreateTorrent_callers_ind (in_memory client factory) a nss name
               (fun w tr => slot name w = Some c0)); [done |].
      intros w tr j namespace X e IH Hns Hok.
      apply in_memory_slot_stable; [| done].
      intros n r. by eapply CreateTorrent_call_ok_not_delete. }
    rewrite Hkeep in Hs. by rewrite Hkeep.
  - rewrite CreateTorrent_callers_first_commit in Hs |- * by done.
    destruct (run_pool_trace_grows (in_memory client factory) sched sched'
                (CreateTorrent_callers a nss name, w0, [])) as [l ->].
    by rewrite map_app, first_commit_app, Hs.
Qed.

(** *** Creating an absent name *)

(** A run whose calls are all sleeps and downloads leaves the store as it
    is. *)
Lemma in_memory_fetch_store {A : Type} (p : Prog A) (w : World) :
  forallb is_fetch_event (trace_of (interp (in_memory client factory) p w)) = true ->
  store (world_of (interp (in_memory client factory) p w)) = store w.
Proof.
  revert w. induction p as [r | X e k IH]; intros w; [done |].
  unfold trace_of, world_of in *. simpl.
  destruct (in_memory client factory X e w) as [x w1] eqn:Hh.
  specialize (IH x w1).
  destruct (interp (in_memory client factory) (k x) w1) as [[r w2] tr]. simpl in *.
  intros [Hev Htr]%andb_prop. rewrite (IH Htr).
  destruct e; simpl in Hev, Hh; try discriminate Hev; by injection Hh as _ <-.
Qed.

(** X9: over the in-memory store, when the slot of the name is empty and
    the fetch returns a MetaInfo that can be encoded, [CreateTorrent]
    leaves the encoding in the slot, leaves a file under the name of the
    MetaInfo, of its declared length when there was none and as it was
    otherwise, and returns what [NewTorrent] makes of the decoded bytes in
    that store, or a parse error when they do not decode. *)
Theorem CreateTorrent_creates a namespace name w mi miRaw :
  slot name w = None ->
  result_of (interp (in_memory client factory) (downloadMetaInfo a namespace name) w)
    = Ok mi ->
  Serialize mi = Ok miRaw ->
  slot name (world_of (interp (in_memory client factory)
                         (CreateTorrent a namespace name) w)) = Some miRaw /\
  file_length (Name mi) (world_of (interp (in_memory client factory)
                                     (CreateTorrent a namespace name) w))
    = Some (default (Length mi) (file_length (Name mi) w)) /\
  result_of (interp (in_memory client factory) (CreateTorrent a namespace name) w)
    = match DeserializeMetaInfo miRaw with
      | inr err => Err (Errorf "parse metainfo: " (Some err))
      | inl mi' =>
          initialized
            (factory (store (world_of (interp (in_memory client factory)
                                         (CreateTorrent a namespace name) w))) mi')
      end.
Proof.
  intros Hslot Hfetch Hser. unfold slot, file_length in *.
  pose proof (in_memory_fetch_store (downloadMetaInfo a namespace name) w) as Hstore.
  pose proof (interp_runs (in_memory client factory) (downloadMetaInfo a namespace name) w)
    as Hruns.
  apply downloadMetaInfo_runs in Hruns as [Hfe _]. specialize (Hstore Hfe). clear Hfe.
  unfold CreateTorrent. cbn [interp bind call]. rewrite in_memory_read, Hslot.
  cbn [err_of os_IsNotExist os_ErrNotExist in_memory observe interp bind call].
  rewrite interp_bind.
  unfold result_of, world_of in *.
  destruct (interp (in_memory client factory) (downloadMetaInfo a namespace name) w)
    as [[rf wf] trf]. simpl in Hfetch, Hstore. subst rf.
  cbn [interp bind call in_memory observe]. rewrite Hstore.
  destruct (files (store w) !! Name mi) as [l |] eqn:Hfile; rewrite Hser;
    cbn [interp bind call in_memory observe store metadata files];
    rewrite ?Hstore, Hslot;
    destruct (DeserializeMetaInfo miRaw) as [mi' | err];
    simpl; rewrite ?Hstore;
    try match goal with
        | |- context [factory ?st ?m] =>
            destruct (factory st m) eqn:Hfac; simpl; rewrite ?Hfac
        end;
    rewrite ?lookup_insert_eq, ?Hfile; done.
Qed.

End InMemoryRuns.

(** ** The steps of [CreateTorrent] after the fetch *)

Lemma CreateTorrent_outcome_resolves a namespace name tr r n md attempted committed :
  CreateTorrent_outcome a namespace name tr r ->
  In (EvGetOrSetMetadata n md attempted (Ok committed)) tr ->
  resolves_from committed tr r.
Proof.
  intros Hout Hin.
  inversion Hout as
    [ miRaw tr' r' Hp | e0 Hne | e0 trf err Hne Hf | e0 trf mi1 err Hne Hf
    | e0 trf mi1 err Hne Hf Hs | e0 trf mi1 miRaw err Hne Hf Hs
    | e0 trf mi1 miRaw committed' tr' r' Hne Hf Hs Hp ]; subst;
    try (inversion Hp as [err' Hd | mi2 rn Hd]; subst); split_In Hin;
    apply downloadMetaInfo_runs in Hf as (Hfe & _);
    try (by apply (fetch_event_In _ _ Hfe) in Hin);
    injection Hin as -> -> -> ->; unfold resolves_from; rewrite Hd.
  - split; [done |]. intros mi rn Hnew. split_In Hnew.
    by apply (fetch_event_In _ _ Hfe) in Hnew.
  - exists rn. split; [| split; [| done]].
    + by rewrite last_app.
    + intros mi' rn' Hnew. split_In Hnew.
      * by apply (fetch_event_In _ _ Hfe) in Hnew.
      * by injection Hnew as -> ->.
Qed.

Lemma CreateTorrent_outcome_proceeds a namespace name tr r ns' n' mi0 :
  CreateTorrent_outcome a namespace name tr r ->
  In (EvDownload ns' n' (Ok mi0)) tr ->
  exists re,
    In (EvEnsureFilePresent (Name mi0) (Length mi0) re) tr /\
    match re with
    | Some e => r = Err (Errorf "ensure download/cache file present: " (Some e))
    | None =>
        match Serialize mi0 with
        | inr e => r = Err (Errorf "serialize downloaded metainfo: " (Some e))
        | inl attempted =>
            exists rg,
              In (EvGetOrSetMetadata name TorrentMeta attempted rg) tr /\
              match rg with
              | inr e => r = Err (Errorf "get or set metainfo: " (Some e))
              | inl committed => resolves_from committed tr r
              end
        end
    end.
Proof.
  intros Hout Hdl.
  assert (Hres : forall attempted committed,
            In (EvGetOrSetMetadata name TorrentMeta attempted (Ok committed)) tr ->
            resolves_from committed tr r).
  { intros attempted committed Hin. by eapply CreateTorrent_outcome_resolves. }
  inversion Hout as
    [ miRaw tr' r' Hp | e0 Hne | e0 trf err Hne Hf | e0 trf mi1 err Hne Hf
    | e0 trf mi1 err Hne Hf Hs | e0 trf mi1 miRaw err Hne Hf Hs
    | e0 trf mi1 miRaw committed tr' r' Hne Hf Hs Hp ]; subst;
    try (inversion Hp as [err' Hd | mi2 rn Hd]; subst); split_In Hdl;
    apply downloadMetaInfo_runs in Hf as (_ & H2 & _);
    specialize (H2 _ _ _ Hdl); simplify_eq/=.
  - exists (Some err). split; [unfold miss_prefix; solve_In | done].
  - exists None. split; [unfold miss_prefix; solve_In |]. by rewrite Hs.
  - exists None. split; [unfold miss_prefix; solve_In |]. rewrite Hs.
    exists (Err err). split; [unfold miss_prefix; solve_In | done].
  - exists None. split; [unfold miss_prefix; solve_In |]. rewrite Hs.
    exists (Ok committed). split; [unfold miss_prefix; solve_In |].
    apply (Hres miRaw). unfold miss_prefix. solve_In.
  - exists None. split; [unfold miss_prefix; solve_In |]. rewrite Hs.
    exists (Ok committed). split; [unfold miss_prefix; solve_In |].
    apply (Hres miRaw). unfold miss_prefix. solve_In.
Qed.

(** C1: a run of [CreateTorrent] whose fetch succeeded goes on, step by
    step, to the commit, and from a commit that answered bytes it goes on
    with those bytes and no others: when they decode, its last call is its
    one call of [NewTorrent], on the MetaInfo decoded from the bytes
    [GetOrSetMetadata] answered, whatever bytes were offered to it, and the
    result is what that call gave; when they do not decode, the result is
    the error of the decoding.  When any number of callers create the same
    name over the in-memory store, in any interleaving, every answer of the
    commit is the content of the one slot, every MetaInfo given to
    [NewTorrent] is decoded from it, and every caller that has returned
    after a commit went on from the bytes in the slot. *)
Theorem CreateTorrent_resolves_committed_bytes :
  (forall (W : Type) (h : handler W) a namespace name w mi0 mi rn,
     In (EvDownload namespace name (Ok mi0))
        (trace_of (interp h (CreateTorrent a namespace name) w)) ->
     In (EvNewTorrent mi rn) (trace_of (interp h (CreateTorrent a namespace name) w)) ->
     exists attempted committed,
       Serialize mi0 = Ok attempted /\
       In (EvGetOrSetMetadata name TorrentMeta attempted (Ok committed))
          (trace_of (interp h (CreateTorrent a namespace name) w)) /\
       DeserializeMetaInfo committed = Ok mi /\
       result_of (interp h (CreateTorrent a namespace name) w) = initialized rn) /\
  (forall client factory a nss name w0 sched,
     let st := run_pool (in_memory client factory) sched
                 (CreateTorrent_callers a nss name, w0, []) in
     (forall i attempted committed,
        In (i, EvGetOrSetMetadata name TorrentMeta attempted (Ok committed)) (pool_trace st) ->
        slot name (pool_world st) = Some committed) /\
     (forall i mi rn,
        In (i, EvNewTorrent mi rn) (pool_trace st) ->
        exists committed,
          slot name (pool_world st) = Some committed /\
          DeserializeMetaInfo committed = Ok mi)) /\
  (forall (W : Type) (h : handler W) a namespace name w n md attempted committed,
     In (EvGetOrSetMetadata n md attempted (Ok committed))
        (trace_of (interp h (CreateTorrent a namespace name) w)) ->
     resolves_from committed
       (trace_of (interp h (CreateTorrent a namespace name) w))
       (result_of (interp h (CreateTorrent a namespace name) w))) /\
  (forall (W : Type) (h : handler W) a namespace name w ns' n' mi0,
     In (EvDownload ns' n' (Ok mi0))
        (trace_of (interp h (CreateTorrent a namespace name) w)) ->
     exists re,
       In (EvEnsureFilePresent (Name mi0) (Length mi0) re)
          (trace_of (interp h (CreateTorrent a namespace name) w)) /\
       match re with
       | Some e =>
           result_of (interp h (CreateTorrent a namespace name) w)
           = Err (Errorf "ensure download/cache file present: " (Some e))
       | None =>
           match Serialize mi0 with
           | inr e =>
               result_of (interp h (CreateTorrent a namespace name) w)
               = Err (Errorf "serialize downloaded metainfo: " (Some e))
           | inl attempted =>
               exists rg,
                 In (EvGetOrSetMetadata name TorrentMeta attempted rg)
                    (trace_of (interp h (CreateTorrent a namespace name) w)) /\
                 match rg with
                 | inr e =>
                     result_of (interp h (CreateTorrent a namespace name) w)
                     = Err (Errorf "get or set metainfo: " (Some e))
                 | inl committed =>
                     resolves_from committed
                       (trace_of (interp h (CreateTorrent a namespace name) w))
                       (result_of (interp h (CreateTorrent a namespace name) w))
                 end
           end
       end) /\
  (forall client factory a nss name w0 sched i r attempted committed,
     let st := run_pool (in_memory client factory) sched
                 (CreateTorrent_callers a nss name, w0, []) in
     pool_threads st !! i = Some (Ret r) ->
     In (i, EvGetOrSetMetadata name TorrentMeta attempted (Ok committed)) (pool_trace st) ->
     slot name (pool_world st) = Some committed /\
     resolves_from committed (thread_trace i (pool_trace st)) r).
Proof.
  split; [| split; [| split; [| split]]].
  - intros W h a namespace name w mi0 mi rn Hdl Hnew.
    eapply CreateTorrent_outcome_factory; [| exact Hdl | exact Hnew].
    apply CreateTorrent_runs, interp_runs.
  - intros client factory a nss name w0 sched st. split.
    + intros i attempted committed Hin.
      by eapply CreateTorrent_callers_answers.
    + apply CreateTorrent_callers_converge.
  - intros W h a namespace name w n md attempted committed Hin.
    eapply CreateTorrent_outcome_resolves; [| exact Hin].
    apply CreateTorrent_runs, interp_runs.
  - intros W h a namespace name w ns' n' mi0 Hdl.
    eapply CreateTorrent_outcome_proceeds; [| exact Hdl].
    apply CreateTorrent_runs, interp_runs.
  - intros client factory a nss name w0 sched i r attempted committed st Hi Hin.
    split; [by eapply CreateTorrent_callers_answers |].
    apply CreateTorrent_callers_completed in Hi as (namespace & _ & Hout).
    eapply CreateTorrent_outcome_resolves; [exact Hout |].
    apply thread_trace_In. exact Hin.
Qed.

(** ** The error of [CreateTorrent], step by step *)

Lemma downloadMetaInfo_runs_failed a namespace name trf err :
  runs (downloadMetaInfo a namespace name) trf (Ret (Err err)) ->
  match last trf with
  | None => err = Errorf "download metainfo: " None
  | Some ev =>
      exists e,
        ev = EvDownload namespace name (Err e) /\
        err = if decide (e = metainfoclient_ErrNotFound)
              then storage_ErrNotFound
              else Errorf "download metainfo: " (Some e)
  end.
Proof.
  intros Hr. unfold downloadMetaInfo in Hr.
  apply downloadMetaInfo_loop_attempts in Hr as (answers & -> & _ & _ & _ & Hr); [| lia].
  rewrite attempts_trace_last.
  destruct (last answers) as [[mi | e] |]; simpl in *.
  - discriminate.
  - exists e. split; [done |].
    destruct (decide (e = metainfoclient_ErrNotFound)); congruence.
  - congruence.
Qed.

Lemma CreateTorrent_outcome_reports a namespace name tr r :
  CreateTorrent_outcome a namespace name tr r ->
  CreateTorrent_reports namespace name tr r.
Proof.
  intros Hout. unfold CreateTorrent_reports.
  inversion Hout as
    [ miRaw tr' r' Hp | e0 Hne | e0 trf err Hne Hf | e0 trf mi1 err Hne Hf
    | e0 trf mi1 err Hne Hf Hs | e0 trf mi1 miRaw err Hne Hf Hs
    | e0 trf mi1 miRaw committed tr' r' Hne Hf Hs Hp ]; subst;
    try (inversion Hp as [err' Hd | mi2 rn Hd]; subst).
  - simpl. by exists err'.
  - done.
  - done.
  - apply downloadMetaInfo_runs_failed in Hf.
    unfold miss_prefix. rewrite !last_cons_cons.
    destruct trf as [| ev trf]; [simpl in *; by subst |].
    rewrite last_cons_cons.
    destruct (last (ev :: trf)) as [ev' |] eqn:Hl; [| by apply last_None in Hl].
    destruct Hf as (e & -> & ->). done.
  - by rewrite last_app.
  - rewrite last_app. simpl. exists mi1, err.
    apply downloadMetaInfo_runs in Hf as (_ & _ & _ & H4 & _).
    repeat split; try done. unfold miss_prefix. specialize (H4 _ eq_refl). solve_In.
  - by rewrite last_app.
  - rewrite last_app. simpl. by exists err'.
  - by rewrite last_app.
Qed.

Lemma CreateTorrent_outcome_failing_call a namespace name tr r :
  CreateTorrent_outcome a namespace name tr r ->
  (forall n md e, In (EvGetMetadata n md (Err e)) tr ->
     os_IsNotExist (Some e) = false ->
     r = Err (Errorf "get metainfo: " (Some e))) /\
  (forall n len e, In (EvEnsureFilePresent n len (Some e)) tr ->
     r = Err (Errorf "ensure download/cache file present: " (Some e))) /\
  (forall ns' n' mi n len e,
     In (EvDownload ns' n' (Ok mi)) tr ->
     In (EvEnsureFilePresent n len None) tr ->
     Serialize mi = Err e ->
     r = Err (Errorf "serialize downloaded metainfo: " (Some e))) /\
  (forall n md b e, In (EvGetOrSetMetadata n md b (Err e)) tr ->
     r = Err (Errorf "get or set metainfo: " (Some e))) /\
  (forall n md miRaw e, In (EvGetMetadata n md (Ok miRaw)) tr ->
     DeserializeMetaInfo miRaw = Err e ->
     r = Err (Errorf "parse metainfo: " (Some e))) /\
  (forall n md b committed e, In (EvGetOrSetMetadata n md b (Ok committed)) tr ->
     DeserializeMetaInfo committed = Err e ->
     r = Err (Errorf "parse metainfo: " (Some e))) /\
  (forall mi e, In (EvNewTorrent mi (Err e)) tr ->
     r = Err (Errorf "initialize torrent: " (Some e))).
Proof.
  intros Hout.
  assert (Hfetch : forall trf m' ev,
            runs (downloadMetaInfo a namespace name) trf m' ->
            In ev trf -> is_fetch_event ev = true).
  { intros trf m' ev Hf Hin. apply downloadMetaInfo_runs in Hf as (Hfe & _).
    by apply (fetch_event_In _ _ Hfe). }
  repeat match goal with |- _ /\ _ => split end.
  - intros n md e Hin Hne'.
    inversion Hout as
      [ miRaw tr' r' Hp | e0 Hne | e0 trf err Hne Hf | e0 trf mi1 err Hne Hf
      | e0 trf mi1 err Hne Hf Hs | e0 trf mi1 miRaw err Hne Hf Hs
      | e0 trf mi1 miRaw committed tr' r' Hne Hf Hs Hp ]; subst;
      try (inversion Hp as [err' Hd | mi2 rn Hd]; subst); split_In Hin;
      try (by apply (Hfetch _ _ _ Hf) in Hin);
      simplify_eq/=; congruence.
  - intros n len e Hin.
    inversion Hout as
      [ miRaw tr' r' Hp | e0 Hne | e0 trf err Hne Hf | e0 trf mi1 err Hne Hf
      | e0 trf mi1 err Hne Hf Hs | e0 trf mi1 miRaw err Hne Hf Hs
      | e0 trf mi1 miRaw committed tr' r' Hne Hf Hs Hp ]; subst;
      try (inversion Hp as [err' Hd | mi2 rn Hd]; subst); split_In Hin;
      try (by apply (Hfetch _ _ _ Hf) in Hin);
      by simplify_eq/=.
  - intros ns' n' mi n len e Hdl Hin Hse.
    inversion Hout as
      [ miRaw tr' r' Hp | e0 Hne | e0 trf err Hne Hf | e0 trf mi1 err Hne Hf
      | e0 trf mi1 err Hne Hf Hs | e0 trf mi1 miRaw err Hne Hf Hs
      | e0 trf mi1 miRaw committed tr' r' Hne Hf Hs Hp ]; subst;
      try (inversion Hp as [err' Hd | mi2 rn Hd]; subst); split_In Hin;
      try (by apply (Hfetch _ _ _ Hf) in Hin);
      split_In Hdl;
      apply downloadMetaInfo_runs in Hf as (_ & H2 & _);
      specialize (H2 _ _ _ Hdl); simplify_eq/=; congruence.
  - intros n md b e Hin.
    inversion Hout as
      [ miRaw tr' r' Hp | e0 Hne | e0 trf err Hne Hf | e0 trf mi1 err Hne Hf
      | e0 trf mi1 err Hne Hf Hs | e0 trf mi1 miRaw err Hne Hf Hs
      | e0 trf mi1 miRaw committed tr' r' Hne Hf Hs Hp ]; subst;
      try (inversion Hp as [err' Hd | mi2 rn Hd]; subst); split_In Hin;
      try (by apply (Hfetch _ _ _ Hf) in Hin);
      by simplify_eq/=.
  - intros n md miRaw' e Hin Hde.
    inversion Hout as
      [ miRaw tr' r' Hp | e0 Hne | e0 trf err Hne Hf | e0 trf mi1 err Hne Hf
      | e0 trf mi1 err Hne Hf Hs | e0 trf mi1 miRaw err Hne Hf Hs
      | e0 trf mi1 miRaw committed tr' r' Hne Hf Hs Hp ]; subst;
      try (inversion Hp as [err' Hd | mi2 rn Hd]; subst); split_In Hin;
      try (by apply (Hfetch _ _ _ Hf) in Hin);
      simplify_eq/=; congruence.
  - intros n md b committed' e Hin Hde.
    inversion Hout as
      [ miRaw tr' r' Hp | e0 Hne | e0 trf err Hne Hf | e0 trf mi1 err Hne Hf
      | e0 trf mi1 err Hne Hf Hs | e0 trf mi1 miRaw err Hne Hf Hs
      | e0 trf mi1 miRaw committed tr' r' Hne Hf Hs Hp ]; subst;
      try (inversion Hp as [err' Hd | mi2 rn Hd]; subst); split_In Hin;
      try (by apply (Hfetch _ _ _ Hf) in Hin);
      simplify_eq/=; congruence.
  - intros mi e Hin.
    inversion Hout as
      [ miRaw tr' r' Hp | e0 Hne | e0 trf err Hne Hf | e0 trf mi1 err Hne Hf
      | e0 trf mi1 err Hne Hf Hs | e0 trf mi1 miRaw err Hne Hf Hs
      | e0 trf mi1 miRaw committed tr' r' Hne Hf Hs Hp ]; subst;
      try (inversion Hp as [err' Hd | mi2 rn Hd]; subst); split_In Hin;
      try (by apply (Hfetch _ _ _ Hf) in Hin);
      by simplify_eq/=.
Qed.

(** C5: when a [Download] answers [metainfoclient.ErrNotFound],
    [CreateTorrent] returns [storage.ErrNotFound] itself, with no context
    around it; every other error of [CreateTorrent] is a text that starts
    with the context of a step, and that step is the one that failed: the
    result is read off the last call of the run, and a call that failed, or
    a decoding or an encoding that failed after a call, gives the error
    with the context of its own step around the text of its own error. *)
Theorem CreateTorrent_failures {W : Type} (h : handler W) (a : TorrentArchive)
    (namespace name : string) (w : W) :
  (forall ns' n',
     In (EvDownload ns' n' (Err metainfoclient_ErrNotFound))
        (trace_of (interp h (CreateTorrent a namespace name) w)) ->
     result_of (interp h (CreateTorrent a namespace name) w) = Err storage_ErrNotFound) /\
  (forall e,
     result_of (interp h (CreateTorrent a namespace name) w) = Err e ->
     (e = storage_ErrNotFound /\
      In (EvDownload namespace name (Err metainfoclient_ErrNotFound))
         (trace_of (interp h (CreateTorrent a namespace name) w))) \/
     (exists stage cause, In stage CreateTorrent_stages /\ e = Errorf stage cause)) /\
  CreateTorrent_reports namespace name
    (trace_of (interp h (CreateTorrent a namespace name) w))
    (result_of (interp h (CreateTorrent a namespace name) w)) /\
  (forall n md e,
     In (EvGetMetadata n md (Err e)) (trace_of (interp h (CreateTorrent a namespace name) w)) ->
     os_IsNotExist (Some e) = false ->
     result_of (interp h (CreateTorrent a namespace name) w)
     = Err (Errorf "get metainfo: " (Some e))) /\
  (forall n len e,
     In (EvEnsureFilePresent n len (Some e))
        (trace_of (interp h (CreateTorrent a namespace name) w)) ->
     result_of (interp h (CreateTorrent a namespace name) w)
     = Err (Errorf "ensure download/cache file present: " (Some e))) /\
  (forall ns' n' mi n len e,
     In (EvDownload ns' n' (Ok mi)) (trace_of (interp h (CreateTorrent a namespace name) w)) ->
     In (EvEnsureFilePresent n len None)
        (trace_of (interp h (CreateTorrent a namespace name) w)) ->
     Serialize mi = Err e ->
     result_of (interp h (CreateTorrent a namespace name) w)
     = Err (Errorf "serialize downloaded metainfo: " (Some e))) /\
  (forall n md b e,
     In (EvGetOrSetMetadata n md b (Err e))
        (trace_of (interp h (CreateTorrent a namespace name) w)) ->
     result_of (interp h (CreateTorrent a namespace name) w)
     = Err (Errorf "get or set metainfo: " (Some e))) /\
  (forall n md miRaw e,
     In (EvGetMetadata n md (Ok miRaw))
        (trace_of (interp h (CreateTorrent a namespace name) w)) ->
     DeserializeMetaInfo miRaw = Err e ->
     result_of (interp h (CreateTorrent a namespace name) w)
     = Err (Errorf "parse metainfo: " (Some e))) /\
  (forall n md b committed e,
     In (EvGetOrSetMetadata n md b (Ok committed))
        (trace_of (interp h (CreateTorrent a namespace name) w)) ->
     DeserializeMetaInfo committed = Err e ->
     result_of (interp h (CreateTorrent a namespace name) w)
     = Err (Errorf "parse metainfo: " (Some e))) /\
  (forall mi e,
     In (EvNewTorrent mi (Err e)) (trace_of (interp h (CreateTorrent a namespace name) w)) ->
     result_of (interp h (CreateTorrent a namespace name) w)
     = Err (Errorf "initialize torrent: " (Some e))).
Proof.
  pose proof (CreateTorrent_runs _ _ _ _ _ (interp_runs h (CreateTorrent a namespace name) w))
    as Hout.
  split; [apply (CreateTorrent_failure_stages h a namespace name w) |].
  split; [apply (CreateTorrent_failure_stages h a namespace name w) |].
  split; [by eapply CreateTorrent_outcome_reports |].
  by eapply CreateTorrent_outcome_failing_call.
Qed.

(** ** Archives built by [NewTorrentArchive] *)


End More.

(** * Examples *)

#[local] Existing Instance example_externals.

(** C2 at work: three attempts against a source that is always
    unavailable. *)
Lemma downloadMetaInfo_transient_exhausts_example :
  exists (errs : list error) (e_last : error),
    length errs = 3%nat /\
    last errs = Some e_last /\
    trace_of (interp (in_memory always_unavailable build)
                (downloadMetaInfo example_archive "ns" "abc") empty_world)
      = retry_trace "ns" "abc" 5 true errs /\
    count_downloads
      (trace_of (interp (in_memory always_unavailable build)
                   (downloadMetaInfo example_archive "ns" "abc") empty_world)) = 3%nat /\
    count_sleeps
      (trace_of (interp (in_memory always_unavailable build)
                   (downloadMetaInfo example_archive "ns" "abc") empty_world)) = 2%nat /\
    result_of (interp (in_memory always_unavailable build)
                 (downloadMetaInfo example_archive "ns" "abc") empty_world)
      = Err (Errorf "download metainfo: " (Some e_last)).
Proof.
  apply (downloadMetaInfo_transient_exhausts
           (in_memory always_unavailable build) example_archive "ns" "abc" empty_world).
  - simpl. lia.
  - reflexivity.
Defined.


(** C4 at work: a source that has nothing is asked once. *)
Lemma downloadMetaInfo_not_found_example :
  trace_of (interp (in_memory has_nothing build)
              (downloadMetaInfo example_archive "ns" "abc") empty_world)
    = [EvDownload "ns" "abc" (Err metainfoclient_ErrNotFound)] /\
  count_downloads
    (trace_of (interp (in_memory has_nothing build)
                 (downloadMetaInfo example_archive "ns" "abc") empty_world)) = 1%nat /\
  count_sleeps
    (trace_of (interp (in_memory has_nothing build)
                 (downloadMetaInfo example_archive "ns" "abc") empty_world)) = 0%nat /\
  result_of (interp (in_memory has_nothing build)
               (downloadMetaInfo example_archive "ns" "abc") empty_world)
    = Err storage_ErrNotFound.
Proof.
  apply (downloadMetaInfo_not_found_short_circuit
           (in_memory has_nothing build) example_archive "ns" "abc" empty_world).
  reflexivity.
Defined.

(** C5 at work: creation against a source that has nothing. *)
Lemma CreateTorrent_not_found_example :
  result_of (interp (in_memory has_nothing build)
               (CreateTorrent example_archive "ns" "abc") empty_world)
    = Err storage_ErrNotFound.
Proof.
  apply (proj1 (CreateTorrent_failures
                  (in_memory has_nothing build) example_archive "ns" "abc" empty_world)
           "ns" "abc").
  vm_compute. tauto.
Defined.

(** C6 as stated fails: on an empty store the error of [GetTorrent] is
    not one [os.IsNotExist] recognises. *)
Lemma GetTorrent_error_is_not_NotExist :
  result_of (interp (in_memory serves_abc build)
               (GetTorrent example_archive "ns" "abc") empty_world)
    = Err (mkError false "get metainfo: file does not exist") /\
  os_IsNotExist
    (err_of (result_of (interp (in_memory serves_abc build)
                          (GetTorrent example_archive "ns" "abc") empty_world))) = false.
Proof. split; reflexivity. Qed.

(** C6 as the code has it, at work. *)
Lemma GetTorrent_absent_slot_example :
  result_of (interp (in_memory serves_abc build)
               (GetTorrent example_archive "ns" "abc") empty_world)
    = Err (mkError false ("get metainfo: " ++ Error os_ErrNotExist)%string) /\
  os_IsNotExist
    (err_of (result_of (interp (in_memory serves_abc build)
                          (GetTorrent example_archive "ns" "abc") empty_world))) = false /\
  trace_of (interp (in_memory serves_abc build)
              (GetTorrent example_archive "ns" "abc") empty_world)
    = [EvGetMetadata "abc" TorrentMeta (Err os_ErrNotExist)] /\
  count_downloads
    (trace_of (interp (in_memory serves_abc build)
                 (GetTorrent example_archive "ns" "abc") empty_world)) = 0%nat.
Proof.
  apply (GetTorrent_absent_slot
           (in_memory serves_abc build) example_archive "ns" "abc" empty_world
           os_ErrNotExist); reflexivity.
Defined.

(** C7 as stated fails: [Stat] succeeds on piece-status bytes that are no
    piece status. *)
Lemma Stat_accepts_any_piece_status :
  result_of (interp (in_memory serves_abc build)
               (Stat example_archive "ns" "abc") odd_status_world)
    = Ok (NewTorrentInfo example_mi [false; false]).
Proof. reflexivity. Qed.

(** C7 as the code has it, at work. *)
Lemma Stat_outcomes_example :
  result_of (interp (in_memory serves_abc build)
               (Stat example_archive "ns" "abc") odd_status_world)
    = Ok (NewTorrentInfo example_mi
            (newBitfieldFromPieceStatusBytes "abc" [Byte.xff; Byte.x07])).
Proof.
  apply (proj1 (proj2 (proj2 (proj2
           (Stat_outcomes (in_memory serves_abc build) example_archive "ns" "abc"
              odd_status_world)))) example_mi example_mi [Byte.xff; Byte.x07]);
    reflexivity.
Defined.

(** C8 at work: deleting twice on an empty store. *)
Lemma DeleteTorrent_idempotent_example :
  result_of (interp (in_memory serves_abc build)
               (DeleteTorrent example_archive "abc") empty_world) = None.
Proof.
  apply (proj1 (proj2 (proj1 DeleteTorrent_idempotent _
                         (in_memory serves_abc build) example_archive "abc" empty_world))
           os_ErrNotExist); reflexivity.
Defined.

(** C10 at work: creating and getting a name that is in the store. *)
Lemma CreateTorrent_GetTorrent_present_example :
  interp (in_memory serves_abc build) (CreateTorrent example_archive "ns" "abc")
    odd_status_world
  = interp (in_memory serves_abc build) (GetTorrent example_archive "ns" "abc")
      odd_status_world.
Proof.
  apply (CreateTorrent_GetTorrent_present
           (in_memory serves_abc build) example_archive "ns" "abc" odd_status_world).
  reflexivity.
Defined.

(** C1 at work: in the racing schedule thread 1 offers the encoding of
    [other_mi], is answered the encoding of [example_mi] that thread 0
    committed, and goes on from it: that is what the slot holds and what
    its call of [NewTorrent] is given. *)
Lemma CreateTorrent_race_example :
  slot "abc"
    (pool_world (run_pool (in_memory serves_two build) racing_schedule
                   (CreateTorrent_callers example_archive ["ns0"; "ns1"] "abc",
                    empty_world, [])))
  = Some example_mi /\
  resolves_from example_mi
    (thread_trace 1
       (pool_trace (run_pool (in_memory serves_two build) racing_schedule
                      (CreateTorrent_callers example_archive ["ns0"; "ns1"] "abc",
                       empty_world, []))))
    (Ok example_mi).
Proof.
  apply (proj2 (proj2 (proj2 (proj2 CreateTorrent_resolves_committed_bytes)))
           serves_two build example_archive ["ns0"; "ns1"] "abc" empty_world
           racing_schedule 1%nat (Ok example_mi) other_mi example_mi).
  - reflexivity.
  - vm_compute. tauto.
Defined.

Lemma example_round_trip : round_trip_keeps_length.
Proof. intros mi miRaw mi' [= <-] Hd. destruct mi; by simplify_eq/=. Qed.

Lemma serves_abc_length : length_derived_from_name serves_abc "abc" 10.
Proof. by intros k namespace mi [= <-]. Qed.

(** C9 at work: one caller creates [abc] on an empty store. *)
Lemma CreateTorrent_file_length_example :
  exists committed mi,
    slot "abc"
      (world_of (interp (in_memory serves_abc build)
                   (CreateTorrent example_archive "ns" "abc") empty_world))
      = Some committed /\
    DeserializeMetaInfo committed = Ok mi /\
    file_length "abc"
      (world_of (interp (in_memory serves_abc build)
                   (CreateTorrent example_archive "ns" "abc") empty_world))
      = Some (Length mi).
Proof.
  apply (proj2 (proj2 CreateTorrent_file_length)
           serves_abc build example_archive "ns" "abc" 10 empty_world example_mi).
  - exact example_round_trip.
  - exact serves_abc_length.
  - reflexivity.
  - intros l Hl. discriminate Hl.
  - reflexivity.
Defined.

(** X5 at work: [abc] is created on an empty store, then got from another
    namespace by an archive that would not fetch. *)
Lemma CreateTorrent_then_GetTorrent_example :
  exists committed mi,
    In (EvNewTorrent mi (Ok example_mi))
       (trace_of (interp (in_memory serves_abc build)
                    (CreateTorrent example_archive "ns" "abc") empty_world)) /\
    interp (in_memory serves_abc build) (GetTorrent zero_retries_archive "other" "abc")
      (world_of (interp (in_memory serves_abc build)
                   (CreateTorrent example_archive "ns" "abc") empty_world))
    = (Ok example_mi,
       world_of (interp (in_memory serves_abc build)
                   (CreateTorrent example_archive "ns" "abc") empty_world),
       [EvGetMetadata "abc" TorrentMeta (Ok committed); EvNewTorrent mi (Ok example_mi)]) /\
    interp (in_memory serves_abc build) (CreateTorrent zero_retries_archive "other" "abc")
      (world_of (interp (in_memory serves_abc build)
                   (CreateTorrent example_archive "ns" "abc") empty_world))
    = interp (in_memory serves_abc build) (GetTorrent zero_retries_archive "other" "abc")
        (world_of (interp (in_memory serves_abc build)
                     (CreateTorrent example_archive "ns" "abc") empty_world)).
Proof.
  apply (CreateTorrent_then_GetTorrent serves_abc build example_archive "ns" "abc"
           empty_world example_mi zero_retries_archive "other").
  reflexivity.
Defined.

(** X6 at work: [abc] is created on a store that holds its piece status. *)
Lemma CreateTorrent_then_Stat_example :
  exists mi,
    In (EvNewTorrent mi (Ok example_mi))
       (trace_of (interp (in_memory serves_abc build)
                    (CreateTorrent example_archive "ns" "abc") status_only_world)) /\
    result_of (interp (in_memory serves_abc build) (Stat example_archive "ns" "abc")
                 (world_of (interp (in_memory serves_abc build)
                              (CreateTorrent example_archive "ns" "abc") status_only_world)))
    = Ok (NewTorrentInfo mi
            (newBitfieldFromPieceStatusBytes "abc" [Byte.x01; Byte.x00])).
Proof.
  apply (CreateTorrent_then_Stat serves_abc build example_archive "ns" "abc"
           status_only_world example_mi example_archive "ns" [Byte.x01; Byte.x00]);
    reflexivity.
Defined.

(** X7 at work: in the racing schedule the slot holds what thread 0, the
    first to commit, offered. *)
Lemma CreateTorrent_first_writer_wins_example :
  slot "abc"
    (pool_world (run_pool (in_memory serves_two build) racing_schedule
                   (CreateTorrent_callers example_archive ["ns0"; "ns1"] "abc",
                    empty_world, [])))
  = first_commit
      (map snd (pool_trace (run_pool (in_memory serves_two build) racing_schedule
                              (CreateTorrent_callers example_archive ["ns0"; "ns1"] "abc",
                               empty_world, [])))).
Proof.
  apply (proj1 (CreateTorrent_first_writer_wins serves_two build example_archive
                  ["ns0"; "ns1"] "abc" empty_world racing_schedule eq_refl)).
Defined.

(** X8 at work: what thread 0 committed is still in the slot when thread 1
    has run to its end. *)
Lemma CreateTorrent_slot_immutable_example :
  slot "abc"
    (pool_world (run_pool (in_memory serves_two build)
                   (racing_schedule_start ++ racing_schedule_end)
                   (CreateTorrent_callers example_archive ["ns0"; "ns1"] "abc",
                    empty_world, [])))
  = Some example_mi.
Proof.
  apply (CreateTorrent_slot_immutable serves_two build example_archive
           ["ns0"; "ns1"] "abc" empty_world racing_schedule_start racing_schedule_end
           example_mi).
  reflexivity.
Defined.

(** X9 at work: [abc] is created on an empty store. *)
Lemma CreateTorrent_creates_example :
  slot "abc" (world_of (interp (in_memory serves_abc build)
                          (CreateTorrent example_archive "ns" "abc") empty_world))
    = Some example_mi /\
  file_length (Name example_mi)
    (world_of (interp (in_memory serves_abc build)
                 (CreateTorrent example_archive "ns" "abc") empty_world))
    = Some (default (Length example_mi) (file_length (Name example_mi) empty_world)) /\
  result_of (interp (in_memory serves_abc build)
               (CreateTorrent example_archive "ns" "abc") empty_world)
    = match DeserializeMetaInfo example_mi with
      | inr err => Err (Errorf "parse metainfo: " (Some err))
      | inl mi' =>
          initialized
            (build (store (world_of (interp (in_memory serves_abc build)
                                       (CreateTorrent example_archive "ns" "abc")
                                       empty_world))) mi')
      end.
Proof.
  apply (CreateTorrent_creates serves_abc build example_archive "ns" "abc" empty_world
           example_mi example_mi); reflexivity.
Defined.
